(** * auto-sade: selección de comunicaciones y descarga desde el portal

    Shallow embedding of [busqueda_comunicaciones.py].

    - The spreadsheet side ([obtener_comunicaciones]) is pure code with
      exceptions: it is embedded over a column-oriented [DataFrame] in the
      error monad [exn + _].
    - The browser side ([buscar_comunicaciones]) talks to an external
      portal.  It is embedded in a small monad that reads the history of
      everything done so far, asks a [mundo] (the portal, the browser and
      the disk, all outside the program) whether the next action raises,
      and appends the action with its outcome to the trace. *)

From Stdlib Require Import ZArith String Ascii List Bool Lia.
From stdpp Require Import base option list strings gmap.
Import ListNotations.

Local Open Scope string_scope.
Local Open Scope list_scope.

(** ** Exceptions *)

(** A Python exception: its class name, whether the class derives from
    [Exception] (what [except Exception] catches: [KeyboardInterrupt],
    [SystemExit] and [GeneratorExit] do not), and [str(e)]. *)
Record exn := Exn { exn_tipo : string; exn_exception : bool; exn_msg : string }.

Definition ValueError (msg : string) : exn := Exn "ValueError" true msg.
Definition KeyError (msg : string) : exn := Exn "KeyError" true msg.
Definition FileNotFoundError (msg : string) : exn := Exn "FileNotFoundError" true msg.
Definition KeyboardInterrupt : exn := Exn "KeyboardInterrupt" false "".

#[global] Instance sum_ret : MRet (sum exn) := fun A x => inr x.
#[global] Instance sum_bind : MBind (sum exn) := fun A B f m =>
  match m with
  | inl e => inl e
  | inr a => f a
  end.

(** ** The spreadsheet and how pandas reads it *)

(** The value of a cell.  In a sheet, as the Excel reader hands it to
    pandas' parser: [NaN] is an empty cell, [Texto] a text cell, [Numero]
    a numeric cell that holds a whole number; the other kinds of cell
    (fractions, dates, booleans, errors) are not modelled.  Out of the
    parser: [NaN] is a missing value, [Texto] a [str], [Numero] an [int],
    [Flotante c] the [float] that the parser makes of the cell [c] (which
    float it is is not modelled: two different cells may give the same
    float) and [Booleano] a [bool]. *)
Inductive celda :=
| NaN
| Texto (s : string)
| Numero (z : Z)
| Flotante (de : celda)
| Booleano (b : bool).

Definition isnull (c : celda) : bool :=
  match c with
  | NaN => true
  | _ => false
  end.

(** The first sheet of a workbook as the parser gets it: the labels of the
    columns, from the first row, and the data rows up to the last one
    that holds data.  A row shorter than the header has empty cells at
    its end.  A sheet with no cell at all has neither labels nor rows. *)
Record hoja := Hoja { encabezado : list string; filas : list (list celda) }.

Definition Series := list celda.

(** A data frame, column by column, in the order of the sheet. *)
Definition DataFrame := list (string * Series).

Definition esta_en (s : string) (l : list string) : bool :=
  existsb (String.eqb s) l.

Definition celda_en (i : nat) (fila : list celda) : celda := nth i fila NaN.

(** *** Missing values *)

(** The strings pandas reads as a missing value ([STR_NA_VALUES]); the
    reader hands an empty cell over as the empty string. *)
Definition na_values : list string :=
  [""; "#N/A"; "#N/A N/A"; "#NA"; "-1.#IND"; "-1.#QNAN"; "-NaN"; "-nan";
   "1.#IND"; "1.#QNAN"; "<NA>"; "N/A"; "NA"; "NULL"; "NaN"; "None"; "n/a";
   "nan"; "null"].

Definition es_na (c : celda) : bool :=
  match c with
  | NaN => true
  | Texto s => esta_en s na_values
  | _ => false
  end.

(** [sanitize_objects]: the missing values of a column become NaN. *)
Definition sanear (c : celda) : celda := if es_na c then NaN else c.

(** *** Numbers written as text *)

Definition es_espacio (c : ascii) : bool :=
  let n := N_of_ascii c in
  N.eqb n 32 || (N.leb 9 n && N.leb n 13).

Definition es_digito (c : ascii) : bool :=
  let n := N_of_ascii c in
  N.leb 48 n && N.leb n 57.

Fixpoint saltar_espacios (s : string) : string :=
  match s with
  | String c r => if es_espacio c then saltar_espacios r else s
  | EmptyString => s
  end.

Definition signo (s : string) : bool * string :=
  match s with
  | String c r =>
      if Ascii.eqb c "-" then (true, r)
      else if Ascii.eqb c "+" then (false, r)
      else (false, s)
  | EmptyString => (false, s)
  end.

(** What the parser keeps of the digits it has read: the number made of
    the first 17 of them, how many of those there are, how many came after
    them, and the whole number that all the digits spell. *)
Record cuenta := Cuenta {
  mantisa : Z;
  digitos : nat;
  sobrantes : nat;
  valor : Z
}.

(** The digits at the head of a string, counted after [k], and what
    follows them. *)
Fixpoint leer_digitos (k : cuenta) (s : string) : cuenta * string :=
  match s with
  | String c r =>
      if es_digito c
      then
        let d := Z.of_N (N_of_ascii c - 48) in
        leer_digitos
          (if Nat.ltb (digitos k) 17
           then Cuenta (10 * mantisa k + d) (S (digitos k)) (sobrantes k)
                       (10 * valor k + d)
           else Cuenta (mantisa k) (digitos k) (S (sobrantes k))
                       (10 * valor k + d))
          r
      else (k, s)
  | EmptyString => (k, s)
  end.

Inductive numerico :=
| Entero (z : Z)
| Real.

(** The least number that rounds to infinity as a [float64]. *)
Definition HUGE_VAL : Z := (2 ^ 1024 - 2 ^ 970)%Z.

(** The parser's [precise_xstrtod] on a whole text: spaces, a sign, digits
    with at most one point among them (one digit at least), an exponent
    [e] or [E] with its sign and digits, spaces, and nothing else.  The
    number is the first 17 digits times a power of ten; the parser fails
    when that power is above 308 or the number is infinite as a
    [float64].  Without point and exponent the text is a whole number, the
    one its digits spell.  The arithmetic is exact here: the rounding of
    the 17 digits to a [float64] is not modelled. *)
Definition xstrtod (s : string) : option numerico :=
  let '(neg, s2) := signo (saltar_espacios s) in
  let '(k1, s3) := leer_digitos (Cuenta 0 0 0 0) s2 in
  let '(punto, k2, s4) :=
    match s3 with
    | String c r =>
        if Ascii.eqb c "."
        then let '(k2, r') := leer_digitos (Cuenta (mantisa k1) (digitos k1) 0 0) r in
             (true, k2, r')
        else (false, k1, s3)
    | EmptyString => (false, k1, s3)
    end in
  if Nat.eqb (digitos k2) 0 then None
  else
    let '(expo, n, s5) :=
      match s4 with
      | String c r =>
          if Ascii.eqb c "e" || Ascii.eqb c "E"
          then let '(nneg, r1) := signo r in
               let '(k3, r') := leer_digitos (Cuenta 0 0 0 0) r1 in
               if Nat.eqb (digitos k3 + sobrantes k3) 0 then (false, 0%Z, s4)
               else (true, if nneg then (- valor k3)%Z else valor k3, r')
          else (false, 0%Z, s4)
      | EmptyString => (false, 0%Z, s4)
      end in
    let exponente :=
      (Z.of_nat (sobrantes k1) - Z.of_nat (digitos k2 - digitos k1) + n)%Z in
    if Z.ltb 308 exponente then None
    else if Z.ltb 0 exponente && Z.leb HUGE_VAL (mantisa k2 * 10 ^ exponente)%Z
    then None
    else
      match saltar_espacios s5 with
      | EmptyString =>
          Some (if punto || expo then Real
                else Entero (if neg then (- valor k1)%Z else valor k1))
      | String _ _ => None
      end.

Definition minuscula (c : ascii) : ascii :=
  let n := N_of_ascii c in
  if N.leb 65 n && N.leb n 90 then ascii_of_N (n + 32) else c.

Fixpoint minusculas (s : string) : string :=
  match s with
  | String c r => String (minuscula c) (minusculas r)
  | EmptyString => EmptyString
  end.

(** [floatify]: a number by [xstrtod], or one of the spellings of
    infinity. *)
Definition floatify (s : string) : option numerico :=
  match xstrtod s with
  | Some n => Some n
  | None =>
      if esta_en (minusculas s)
                 ["inf"; "+inf"; "-inf"; "infinity"; "+infinity"; "-infinity"]
      then Some Real
      else None
  end.

(** *** The type of a column *)

Definition INT64_MIN : Z := -9223372036854775808.
Definition INT64_MAX : Z := 9223372036854775807.
Definition UINT64_MAX : Z := 18446744073709551615.

(** What [maybe_convert_numeric] sees in a cell. *)
Inductive vista :=
| VNulo
| VEntero (z : Z)
| VReal.

(** [None] when the cell is not a number: the conversion of the column
    raises.  A whole number written as text must fit in 64 bits; a numeric
    cell that does not fit is taken as a float. *)
Definition ver (c : celda) : option vista :=
  match c with
  | NaN => Some VNulo
  | Texto s =>
      if esta_en s na_values then Some VNulo
      else match floatify s with
           | Some (Entero z) =>
               if Z.leb INT64_MIN z && Z.leb z UINT64_MAX
               then Some (VEntero z) else None
           | Some Real => Some VReal
           | None => None
           end
  | Numero z =>
      Some (if Z.leb INT64_MIN z && Z.leb z UINT64_MAX then VEntero z else VReal)
  | Flotante _ => Some VReal
  | Booleano _ => None
  end.

Definition es_nulo (v : vista) : bool :=
  match v with VNulo => true | _ => false end.
Definition es_real (v : vista) : bool :=
  match v with VReal => true | _ => false end.
Definition es_negativo (v : vista) : bool :=
  match v with VEntero z => Z.ltb z 0 | _ => false end.
Definition es_grande (v : vista) : bool :=
  match v with VEntero z => Z.ltb INT64_MAX z | _ => false end.

Definition a_flotante (c : celda) (v : vista) : celda :=
  match v with
  | VNulo => NaN
  | _ => Flotante c
  end.

Definition a_entero (v : vista) : celda :=
  match v with
  | VEntero z => Numero z
  | _ => NaN
  end.

(** The reader hands an empty cell to the parser as the empty string. *)
Definition entregada (c : celda) : celda :=
  match c with
  | NaN => Texto ""
  | _ => c
  end.

(** [lib.maybe_convert_numeric]: [None] when some cell is not a number;
    otherwise the column as the reader handed it ([inl]) when whole
    numbers above [INT64_MAX] meet missing values or negative numbers,
    floats when a value is missing or is not whole, and integers in every
    other case. *)
Definition maybe_convert_numeric (col : list celda)
    : option (list celda + list celda) :=
  vs ← mapM ver col;
  Some (if existsb es_grande vs && (existsb es_nulo vs || existsb es_negativo vs)
        then inl (map entregada col)
        else if existsb es_nulo vs || existsb es_real vs
             then inr (zip_with a_flotante col vs)
             else inr (map a_entero vs)).

Definition palabra_booleana (s : string) : option bool :=
  if esta_en s ["True"; "TRUE"; "true"] then Some true
  else if esta_en s ["False"; "FALSE"; "false"] then Some false
  else None.

Definition como_booleano (c : celda) : option celda :=
  match c with
  | NaN => Some NaN
  | Booleano b => Some (Booleano b)
  | Texto s => Booleano <$> palabra_booleana s
  | _ => None
  end.

(** [libops.maybe_convert_bool]: booleans when every value is a boolean,
    one of the six words, or missing; the column as it is otherwise. *)
Definition maybe_convert_bool (col : list celda) : list celda :=
  default col (mapM como_booleano col).

(** The parser's [_infer_types] on a column of the sheet. *)
Definition inferir (col : list celda) : Series :=
  match maybe_convert_numeric col with
  | Some (inr numeros) => numeros
  | Some (inl objetos) => maybe_convert_bool objetos
  | None => maybe_convert_bool (map sanear col)
  end.

(** *** [read_excel] and the frame *)

Fixpoint columnas_desde (i : nat) (nombres : list string)
    (fs : list (list celda)) : DataFrame :=
  match nombres with
  | [] => []
  | n :: ns => (n, inferir (map (celda_en i) fs)) :: columnas_desde (S i) ns fs
  end.

Fixpoint unir (sep : string) (l : list string) : string :=
  match l with
  | [] => ""
  | [x] => x
  | x :: l' => x +:+ sep +:+ unir sep l'
  end.

(** [repr] of a list of names that hold no quote and no backslash. *)
Definition repr_lista (l : list string) : string :=
  "[" +:+ unir ", " (map (fun n => "'" +:+ n +:+ "'") l) +:+ "]".

Definition comillas : string := String (ascii_of_nat 34) "".

(** A sheet with no cell at all. *)
Definition hoja_vacia (h : hoja) : bool :=
  match encabezado h, filas h with
  | [], [] => true
  | _, _ => false
  end.

(** [pd.read_excel(archivo, sheet_name=0, usecols=columnas)] on a sheet
    already opened.  An empty sheet gives an empty frame and [usecols] is
    not looked at; otherwise every name of [usecols] must be a column. *)
Definition read_excel (h : hoja) (usecols : list string) : exn + DataFrame :=
  match encabezado h, filas h with
  | [], [] => inr []
  | _, _ =>
      match List.filter (fun c => negb (esta_en c (encabezado h))) usecols with
      | [] =>
          inr (List.filter (fun col => esta_en (fst col) usecols)
                 (columnas_desde 0 (encabezado h) (filas h)))
      | faltan =>
          inl (ValueError
                 ("Usecols do not match columns, columns expected but not found: "
                    +:+ repr_lista faltan))
      end
  end.

(** [df[nombre]] *)
Fixpoint getitem (df : DataFrame) (nombre : string) : exn + Series :=
  match df with
  | [] => inl (KeyError ("'" +:+ nombre +:+ "'"))
  | (n, col) :: df' => if String.eqb n nombre then inr col else getitem df' nombre
  end.

Fixpoint con_mascara {A : Type} (mascara : list bool) (xs : list A) : list A :=
  match mascara, xs with
  | b :: m, x :: xs' => if b then x :: con_mascara m xs' else con_mascara m xs'
  | _, _ => []
  end.

(** [df[mascara]]: the rows where the mask is true, in every column. *)
Definition getitem_mascara (df : DataFrame) (mascara : list bool) : DataFrame :=
  map (fun col => (fst col, con_mascara mascara (snd col))) df.

(** [df.drop(columns=etiquetas)] *)
Definition drop (df : DataFrame) (etiquetas : list string) : exn + DataFrame :=
  match List.filter (fun e => negb (esta_en e (map fst df))) etiquetas with
  | [] => inr (List.filter (fun col => negb (esta_en (fst col) etiquetas)) df)
  | faltan =>
      inl (KeyError (comillas +:+ repr_lista faltan +:+ " not found in axis"
                       +:+ comillas))
  end.

Definition tolist (s : Series) : list celda := s.

Definition columnas : list string := ["CCOO N°"; "ORGANISMO"].

(** The files of the disk: the first sheet of the workbook at a path, or
    [None] when the path cannot be read as a workbook (that includes the
    empty path a cancelled file dialog returns), and then the exception
    that [read_excel] raises for it. *)
Record archivos := Archivos {
  leer :> string -> option hoja;
  error_de_lectura : string -> exn
}.

(** [obtener_comunicaciones], given what the file dialog returned. *)
Definition obtener_comunicaciones (disco : archivos) (archivo : string)
    : exn + list celda :=
  h ← match disco archivo with
      | Some h => inr h
      | None => inl (error_de_lectura disco archivo)
      end;
  df ← read_excel h columnas;
  organismo ← getitem df "ORGANISMO";
  let df := getitem_mascara df (map isnull organismo) in
  df ← drop df ["ORGANISMO"];
  ccoo ← getitem df "CCOO N°";
  mret (tolist ccoo).

(** *** The selection, in the words of the specification *)


(** What the parser can make of a cell of the sheet: a missing value of a
    missing cell; of any other cell the cell as it is, the whole number it
    holds or spells, its float, or the boolean it spells. *)
Inductive leida : celda -> celda -> Prop :=
| leida_na c :
    es_na c = true -> leida c NaN
| leida_igual c :
    es_na c = false -> leida c c
| leida_entero c z :
    es_na c = false -> ver c = Some (VEntero z) -> leida c (Numero z)
| leida_flotante c :
    es_na c = false -> leida c (Flotante c)
| leida_booleana s b :
    palabra_booleana s = Some b -> leida (Texto s) (Booleano b).




Fixpoint indice (nombre : string) (l : list string) : option nat :=
  match l with
  | [] => None
  | n :: l' => if String.eqb n nombre then Some 0%nat else S <$> indice nombre l'
  end.

Definition hoja_ejemplo : hoja :=
  Hoja ["CCOO N°"; "ORGANISMO"]
       [[Texto "100"; NaN]; [Texto "200"; Texto "X"]; [Texto "300"; NaN]].

(** A disk with one workbook whatever the path, and a disk with none. *)
Definition no_existe (ruta : string) : exn :=
  FileNotFoundError ("[Errno 2] No such file or directory: '" +:+ ruta +:+ "'").

Definition con_hoja (h : hoja) : archivos := Archivos (fun _ => Some h) no_existe.

Definition sin_archivos : archivos := Archivos (fun _ => None) no_existe.

(** ** The portal, the browser and the disk *)

(** What [page.expect_download] hands over: the name the transfer suggests
    and the bytes transferred. *)
Record download := Download { suggested_filename : string; contenido : string }.

(** The calls the program makes on the outside world.  Locators are lazy in
    Playwright, so [page.locator(sel).nth(n).fill(t)] is one action;
    [ClickLocator sel] is [page.locator(sel).click()], with no index.
    [fill] receives whatever value the list holds (the annotation
    [list[str]] is not enforced, and [tolist()] returns the cells as they
    are); what Playwright does with a value that is not text is up to the
    world.  Durations are in milliseconds ([sleep(0.5)] is [Sleep 500]). *)
Inductive accion :=
| SyncPlaywright
| Launch (headless : bool)
| NewContext (accept_downloads : bool)
| NewPage
| SetDefaultTimeout (ms : Z)
| Goto (url : string)
| WaitForLoadState (estado : string)
| WaitFor (selector : string) (n : nat)
| Fill (selector : string) (n : nat) (valor : celda)
| Click (selector : string) (n : nat)
| ClickLocator (selector : string)
| ExpectDownload (timeout : Z)
| SaveAs (d : download) (ruta : string)
| Sleep (ms : Z)
| Print (linea : string)
| Stop.

Inductive efecto :=
| Hecho
| Lanzo (e : exn)
| Recibe (d : download).

Abbreviation evento := (accion * efecto)%type.
Abbreviation traza := (list evento).

(** The outside world is deterministic in the history: given everything
    done so far it decides whether the next action raises, and which
    transfer a download wait receives. *)
Record mundo := Mundo {
  falla : traza -> accion -> option exn;
  transferencia : traza -> download
}.

(** A computation reads the history and returns the events it appended,
    with an exception or a value. *)
Definition M (A : Type) : Type := traza -> traza * (exn + A).

#[global] Instance M_ret : MRet M := fun A x _ => ([], inr x).
#[global] Instance M_bind : MBind M := fun A B f m h =>
  match m h with
  | (t1, inl e) => (t1, inl e)
  | (t1, inr a) =>
      match f a (h ++ t1) with
      | (t2, r) => (t1 ++ t2, r)
      end
  end.

Definition raise {A : Type} (e : exn) : M A := fun _ => ([], inl e).

(** [try: m  except Exception as e: ...] hands the exception to the
    handler when its class derives from [Exception]; any other exception
    goes on up. *)
Definition try_ {A : Type} (m : M A) : M (exn + A) := fun h =>
  match m h with
  | (t, inl e) => if exn_exception e then (t, inr (inl e)) else (t, inl e)
  | (t, inr a) => (t, inr (inr a))
  end.

(** What the exit of a [with] block sees: the outcome of the block,
    whatever the exception. *)
Definition capturar {A : Type} (m : M A) : M (exn + A) := fun h =>
  match m h with
  | (t, r) => (t, inr r)
  end.

Fixpoint for_each {A : Type} (xs : list A) (cuerpo : A -> M unit) : M unit :=
  match xs with
  | [] => mret tt
  | x :: xs' => cuerpo x ;; for_each xs' cuerpo
  end.

(** [posixpath.join] *)
Definition startswith_sep (s : string) : bool :=
  match s with
  | String c _ => Ascii.eqb c "/"
  | EmptyString => false
  end.

Fixpoint endswith_sep (s : string) : bool :=
  match s with
  | EmptyString => false
  | String c EmptyString => Ascii.eqb c "/"
  | String _ s' => endswith_sep s'
  end.

Definition join2 (path b : string) : string :=
  if startswith_sep b then b
  else if String.eqb path "" || endswith_sep path then path +:+ b
  else path +:+ "/" +:+ b.

Definition os_path_join (a : string) (p : list string) : string :=
  fold_left join2 p a.

Definition mensaje_error (e : exn) : string :=
  "Error descargando archivo de comunicación " +:+ exn_msg e.

Section Portal.

(** The world, the process environment after [load_dotenv()], and the value
    of [os.path.expanduser("~")]. *)
Variable w : mundo.
Variable environ : string -> option string.
Variable home : string.

(** An action on the browser or the disk: the world says whether it raises. *)
Definition hacer (a : accion) : M unit := fun h =>
  match falla w h a with
  | Some e => ([(a, Lanzo e)], inl e)
  | None => ([(a, Hecho)], inr tt)
  end.

(** An action of the process itself ([sleep], [print], leaving the
    [with] block). *)
Definition local (a : accion) : M unit := fun _ => ([(a, Hecho)], inr tt).

(** Leaving [with page.expect_download(timeout=ms)]: the download event
    arrives, or the wait raises. *)
Definition expect_download (ms : Z) : M download := fun h =>
  match falla w h (ExpectDownload ms) with
  | Some e => ([(ExpectDownload ms, Lanzo e)], inl e)
  | None =>
      let d := transferencia w h in
      ([(ExpectDownload ms, Recibe d)], inr d)
  end.

Definition getenv (nombre : string) : M (option string) :=
  mret (environ nombre).

Definition save_path (d : download) : string :=
  os_path_join home ["Downloads"; suggested_filename d].

(** The body of the [try] (lines 58 to 67). *)
Definition descargar : M unit :=
  hacer (Click ".z-icon-download" 0) ;;
  d ← expect_download 30000;
  hacer (SaveAs d (save_path d)) ;;
  local (Sleep 500).

(** One turn of the loop (lines 49 to 74); [continue] ends the turn in the
    handler. *)
Definition iteracion (comunicacion : celda) : M unit :=
  hacer (Fill ".z-textbox" 0 comunicacion) ;;
  hacer (Click ".z-button" 2) ;;
  hacer (WaitForLoadState "networkidle") ;;
  local (Sleep 1000) ;;
  hacer (Click ".boton-sin-caja.z-button" 29) ;;
  hacer (WaitForLoadState "networkidle") ;;
  local (Sleep 1000) ;;
  r ← try_ descargar;
  match r with
  | inl e => local (Print (mensaje_error e))
  | inr _ =>
      hacer (Click ".btn.z-button" 0) ;;
      local (Sleep 1000) ;;
      hacer (WaitForLoadState "networkidle")
  end.

Definition portal : string := "http://euc.gcba.gob.ar/ccoo-web/".

(** Lines 23 to 46. *)
Definition autenticar : M unit :=
  hacer (Launch false) ;;
  hacer (NewContext true) ;;
  hacer NewPage ;;
  hacer (SetDefaultTimeout 30000) ;;
  hacer (Goto portal) ;;
  hacer (WaitForLoadState "networkidle") ;;
  hacer (WaitFor ".form-control.z-textbox" 0) ;;
  user ← getenv "SADE_USER_CECILIA";
  password ← getenv "SADE_PASSWORD_CECILIA";
  match user, password with
  | Some user, Some password =>
      hacer (Fill ".form-control.z-textbox" 0 (Texto user)) ;;
      hacer (Fill ".form-control.z-textbox" 1 (Texto password)) ;;
      hacer (ClickLocator ".btn.btn-default.z-button") ;;
      hacer (WaitForLoadState "networkidle") ;;
      local (Sleep 2000)
  | _, _ =>
      raise (ValueError "Environment variables for SADE credentials not found")
  end.

(** [with sync_playwright() as p:] the block is left through [Stop]
    whether it ends normally or with an exception. *)
Definition with_sync_playwright {A : Type} (m : M A) : M A :=
  hacer SyncPlaywright ;;
  r ← capturar m;
  local Stop ;;
  match r with
  | inl e => raise e
  | inr a => mret a
  end.

Definition buscar_comunicaciones (comunicaciones : list celda) : M unit :=
  with_sync_playwright (autenticar ;; for_each comunicaciones iteracion).

(** [main], given the files on disk and the path the dialog returned. *)
Definition main (disco : archivos) (archivo : string) : M unit :=
  match obtener_comunicaciones disco archivo with
  | inl e => raise e
  | inr comunicaciones => buscar_comunicaciones comunicaciones
  end.

End Portal.

(** A run of the downloader, and of the whole program, from a fresh
    process: nothing has happened yet. *)
Definition correr (w : mundo) (environ : string -> option string)
    (home : string) (comunicaciones : list celda) : traza * (exn + unit) :=
  buscar_comunicaciones w environ home comunicaciones [].

Definition correr_main (w : mundo) (environ : string -> option string)
    (home : string) (disco : archivos) (archivo : string) : traza * (exn + unit) :=
  main w environ home disco archivo [].

(** ** Reading a trace *)

(** The steps of the portal's protocol that an event stands for.  An
    action counts as attempted whether it raised or not. *)
Inductive fase :=
| FNavega (url : string)
| FCredencial (n : nat) (valor : celda)
| FEnvia
| FBusca (c : celda)
| FDispara
| FAbre (n : nat)
| FDescarga (n : nat)
| FEspera (ms : Z)
| FObtiene (d : download)
| FGuarda (ruta : string) (d : download)
| FFalla (e : exn)
| FError (linea : string)
| FVuelve.

(** The actions inside the [try]. *)
Definition es_descarga (a : accion) : bool :=
  match a with
  | Click sel _ => String.eqb sel ".z-icon-download"
  | ExpectDownload _ => true
  | SaveAs _ _ => true
  | _ => false
  end.

Definition fallo_de (o : efecto) : list fase :=
  match o with
  | Lanzo e => [FFalla e]
  | _ => []
  end.

Definition fases_de (ev : evento) : list fase :=
  match ev with
  | (Goto url, _) => [FNavega url]
  | (Fill sel n v, _) =>
      if String.eqb sel ".form-control.z-textbox" then [FCredencial n v]
      else if String.eqb sel ".z-textbox" && Nat.eqb n 0 then [FBusca v]
      else []
  | (ClickLocator sel, _) =>
      if String.eqb sel ".btn.btn-default.z-button" then [FEnvia] else []
  | (Click sel n, o) =>
      if String.eqb sel ".z-button" then [FDispara]
      else if String.eqb sel ".boton-sin-caja.z-button" then [FAbre n]
      else if String.eqb sel ".z-icon-download" then FDescarga n :: fallo_de o
      else if String.eqb sel ".btn.z-button" then [FVuelve]
      else []
  | (ExpectDownload ms, Recibe d) => [FEspera ms; FObtiene d]
  | (ExpectDownload ms, o) => FEspera ms :: fallo_de o
  | (SaveAs d ruta, Hecho) => [FGuarda ruta d]
  | (SaveAs d ruta, o) => fallo_de o
  | (Print l, _) => [FError l]
  | _ => []
  end.

Definition fases (tr : traza) : list fase := flat_map fases_de tr.

(** The identifiers searched, in the order of the searches. *)
Definition busqueda_de (f : fase) : option celda :=
  match f with
  | FBusca c => Some c
  | _ => None
  end.

Definition busquedas (tr : traza) : list celda := omap busqueda_de (fases tr).

Definition n_busquedas (tr : traza) : nat := length (busquedas tr).

(** The files saved, each with the identifier that was being processed. *)
Fixpoint guardadas_desde (actual : celda) (fs : list fase) : list (celda * string) :=
  match fs with
  | [] => []
  | FBusca c :: fs' => guardadas_desde c fs'
  | FGuarda ruta _ :: fs' => (actual, ruta) :: guardadas_desde actual fs'
  | _ :: fs' => guardadas_desde actual fs'
  end.

Definition guardadas (tr : traza) : list (celda * string) :=
  guardadas_desde NaN (fases tr).

(** The lines printed. *)
Definition linea_de (f : fase) : option string :=
  match f with
  | FError l => Some l
  | _ => None
  end.

Definition lineas (tr : traza) : list string := omap linea_de (fases tr).

(** The disk after the saves of a trace: [save_as] writes the transfer at
    its path, over whatever was there.  The table is keyed by the path as
    it is written: one text is one file, and that is all it says.  Two
    different texts may name one file ("..", links), so the table tells
    what was written under a text, not which files were left alone. *)
Definition guardar (fs : gmap string string) (f : fase) : gmap string string :=
  match f with
  | FGuarda ruta d => <[ruta := contenido d]> fs
  | _ => fs
  end.

Definition disco_tras (fs : gmap string string) (tr : traza) : gmap string string :=
  foldl guardar fs (fases tr).

Fixpoint contiene (aguja pajar : string) : bool :=
  String.prefix aguja pajar ||
  match pajar with
  | EmptyString => false
  | String _ pajar' => contiene aguja pajar'
  end.


(** The attempts of the search, open and download steps, and the cycle
    of attempts one identifier gets. *)
Definition es_intento (f : fase) : bool :=
  match f with
  | FBusca _ | FDispara | FAbre _ | FDescarga _ => true
  | _ => false
  end.

Definition intentos (tr : traza) : list fase := List.filter es_intento (fases tr).

Definition ciclo (c : celda) : list fase :=
  [FBusca c; FDispara; FAbre 29; FDescarga 0].

(** The steps of a turn in which nothing raises and the transfer [d]
    arrives. *)
Definition ciclo_completo (home : string) (c : celda) (d : download) : list fase :=
  [FBusca c; FDispara; FAbre 29; FDescarga 0; FEspera 30000; FObtiene d;
   FGuarda (os_path_join home ["Downloads"; suggested_filename d]) d; FVuelve].

(** Every exception of the download step that [except Exception] catches
    is followed at once by a printed line, made of the fixed text and
    [str(e)]; after any other exception of the download step nothing
    follows: nothing is printed and the run is over. *)
Fixpoint errores_registrados (fs : list fase) : bool :=
  match fs with
  | [] => true
  | FFalla e :: fs' =>
      (if exn_exception e
       then match fs' with
            | FError l :: _ =>
                String.eqb l ("Error descargando archivo de comunicación "
                                +:+ exn_msg e)
            | _ => false
            end
       else match fs' with
            | [] => true
            | _ :: _ => false
            end) && errores_registrados fs'
  | _ :: fs' => errores_registrados fs'
  end.

Definition download_eqb (a b : download) : bool :=
  String.eqb (suggested_filename a) (suggested_filename b) &&
  String.eqb (contenido a) (contenido b).

(** The download step as it should go: the click is on the first download
    icon and the wait follows it unless the click raised; the wait has a
    timeout of 30000 ms; the transfer received is saved next, under
    [home]'s "Downloads" with the name it suggests, unless saving raised. *)
Fixpoint descarga_conforme (home : string) (fs : list fase) : bool :=
  match fs with
  | [] => true
  | FDescarga n :: fs' =>
      Nat.eqb n 0 &&
      match fs' with
      | FEspera _ :: _ | FFalla _ :: _ => true
      | _ => false
      end && descarga_conforme home fs'
  | FEspera ms :: fs' => Z.eqb ms 30000 && descarga_conforme home fs'
  | FObtiene d :: fs' =>
      match fs' with
      | FGuarda ruta d' :: _ =>
          download_eqb d d' &&
          String.eqb ruta (os_path_join home ["Downloads"; suggested_filename d])
      | FFalla _ :: _ => true
      | _ => false
      end && descarga_conforme home fs'
  | _ :: fs' => descarga_conforme home fs'
  end.

(** After a saved file the next step is the click back to the list. *)
Fixpoint tras_guardar_vuelve (fs : list fase) : bool :=
  match fs with
  | [] => true
  | FGuarda _ _ :: fs' =>
      match fs' with
      | FVuelve :: _ => true
      | _ => false
      end && tras_guardar_vuelve fs'
  | _ :: fs' => tras_guardar_vuelve fs'
  end.

(** After a printed error the run is over or the next step is a search:
    there is no click back to the list in between. *)
Fixpoint tras_error_busca (fs : list fase) : bool :=
  match fs with
  | [] => true
  | FError _ :: fs' =>
      match fs' with
      | [] | FBusca _ :: _ => true
      | _ => false
      end && tras_error_busca fs'
  | _ :: fs' => tras_error_busca fs'
  end.

(** Where a saved file went, as a property of the step. *)
Definition guardada_en_descargas (home : string) (f : fase) : Prop :=
  match f with
  | FGuarda ruta d => ruta = os_path_join home ["Downloads"; suggested_filename d]
  | _ => True
  end.

Definition no_guarda_en (ruta : string) (f : fase) : Prop :=
  match f with
  | FGuarda ruta' _ => ruta' <> ruta
  | _ => True
  end.

(** The actions of the authentication. *)
Definition es_autenticacion (a : accion) : bool :=
  match a with
  | SyncPlaywright | Launch _ | NewContext _ | NewPage | SetDefaultTimeout _
  | Goto _ | WaitForLoadState _ | WaitFor _ _ => true
  | Fill sel _ _ => String.eqb sel ".form-control.z-textbox"
  | ClickLocator sel => String.eqb sel ".btn.btn-default.z-button"
  | _ => false
  end.

(** ** The shapes a run can take *)

(** How the [try] can fail: at the click, at the wait, or at the save. *)
Inductive fallo_descarga : list fase -> exn -> Prop :=
| fallo_clic e :
    fallo_descarga [FDescarga 0; FFalla e] e
| fallo_espera e :
    fallo_descarga [FDescarga 0; FEspera 30000; FFalla e] e
| fallo_guardar d e :
    fallo_descarga [FDescarga 0; FEspera 30000; FObtiene d; FFalla e] e.

(** The steps of one turn of the loop, with how the turn ends. *)
Inductive forma (home : string) (c : celda) : list fase -> exn + unit -> Prop :=
| forma_guardada d :
    forma home c
      [FBusca c; FDispara; FAbre 29; FDescarga 0; FEspera 30000; FObtiene d;
       FGuarda (save_path home d) d; FVuelve] (inr tt)
| forma_saltada fs e :
    fallo_descarga fs e ->
    exn_exception e = true ->
    forma home c
      ([FBusca c; FDispara; FAbre 29] ++ fs ++ [FError (mensaje_error e)])
      (inr tt)
| forma_rota_descarga fs e :
    fallo_descarga fs e ->
    exn_exception e = false ->
    forma home c ([FBusca c; FDispara; FAbre 29] ++ fs) (inl e)
| forma_rota_busca e :
    forma home c [FBusca c] (inl e)
| forma_rota_dispara e :
    forma home c [FBusca c; FDispara] (inl e)
| forma_rota_abre e :
    forma home c [FBusca c; FDispara; FAbre 29] (inl e)
| forma_rota_vuelve d e :
    forma home c
      [FBusca c; FDispara; FAbre 29; FDescarga 0; FEspera 30000; FObtiene d;
       FGuarda (save_path home d) d; FVuelve] (inl e).

(** The steps of the whole loop over a list of identifiers. *)
Inductive corrida (home : string) : list celda -> list fase -> exn + unit -> Prop :=
| corrida_fin :
    corrida home [] [] (inr tt)
| corrida_sigue c cs b fs r :
    forma home c b (inr tt) ->
    corrida home cs fs r ->
    corrida home (c :: cs) (b ++ fs) r
| corrida_rota c cs b e :
    forma home c b (inl e) ->
    corrida home (c :: cs) b (inl e).

(** The steps that belong to the authentication. *)
Definition es_fase_login (f : fase) : bool :=
  match f with
  | FNavega _ | FCredencial _ _ | FEnvia => true
  | _ => false
  end.

(** The steps of a whole run: the authentication, then the loop unless the
    authentication raised. *)
Inductive forma_corrida (home : string) (cs : list celda)
    : list fase -> exn + unit -> Prop :=
| forma_sin_login fa e :
    forallb es_fase_login fa = true ->
    forma_corrida home cs fa (inl e)
| forma_con_login fa fl r :
    forallb es_fase_login fa = true ->
    corrida home cs fl r ->
    forma_corrida home cs (fa ++ fl) r.

(** ** Worlds and environments to run the program in *)

Definition entorno_vacio : string -> option string := fun _ => None.

Definition entorno_cecilia : string -> option string := fun nombre =>
  if String.eqb nombre "SADE_USER_CECILIA" then Some "cecilia"
  else if String.eqb nombre "SADE_PASSWORD_CECILIA" then Some "secreto"
  else None.

(** The portal names every transfer "informe.pdf"; the content is that
    of the identifier searched last. *)
Definition informe (h : traza) : download :=
  Download "informe.pdf"
           match last (busquedas h) with
           | Some (Texto s) => s
           | _ => ""
           end.

(** Nothing ever raises. *)
Definition mundo_fiable : mundo := Mundo (fun _ _ => None) informe.

Definition timeout_descarga : exn :=
  Exn "TimeoutError" true
      "Timeout 30000ms exceeded while waiting for event download".

(** The download wait of the identifier at position [k] times out;
    nothing else raises. *)
Definition mundo_sin_descarga (k : nat) : mundo :=
  Mundo (fun h a =>
           match a with
           | ExpectDownload _ =>
               if Nat.eqb (n_busquedas h) (S k) then Some timeout_descarga else None
           | _ => None
           end)
        informe.

(** The events of a turn around the download step when none of them
    raises: up to the detail view, and back to the list. *)
Definition ida (c : celda) : traza :=
  [(Fill ".z-textbox" 0 c, Hecho); (Click ".z-button" 2, Hecho);
   (WaitForLoadState "networkidle", Hecho); (Sleep 1000, Hecho);
   (Click ".boton-sin-caja.z-button" 29, Hecho);
   (WaitForLoadState "networkidle", Hecho); (Sleep 1000, Hecho)].

Definition vuelta : traza :=
  [(Click ".btn.z-button" 0, Hecho); (Sleep 1000, Hecho);
   (WaitForLoadState "networkidle", Hecho)].

(** ** Reading a trace, event by event *)

(** Entering and leaving the [with] block. *)
Definition es_cierre (a : accion) : bool :=
  match a with
  | SyncPlaywright | Stop => true
  | _ => false
  end.

(** An event whose exception no handler of the program catches: the
    action is outside the [try], or the class of the exception does not
    derive from [Exception]. *)
Definition escapa (ev : evento) : bool :=
  match ev with
  | (a, Lanzo e) => negb (es_descarga a && exn_exception e)
  | _ => false
  end.

Definition todo_capturado (t : traza) : bool :=
  forallb (fun ev => negb (escapa ev)) t.

(** How a computation ends: with a value, every exception raised on the
    way having been caught; with the exception that its last action
    raised, which no handler catches; or with an exception of the
    program's own [raise], one of [V]. *)
Inductive termina {A : Type} (V : exn -> Prop) : traza -> exn + A -> Prop :=
| termina_bien t a :
    todo_capturado t = true ->
    termina V t (inr a)
| termina_lanza t a e :
    todo_capturado t = true ->
    escapa (a, Lanzo e) = true ->
    termina V (t ++ [(a, Lanzo e)]) (inl e)
| termina_raise t e :
    todo_capturado t = true ->
    V e ->
    termina V t (inl e).

(** Every event of a computation is of an action in [Q]. *)
Definition emite {A : Type} (Q : accion -> Prop) (m : M A) : Prop :=
  forall h, Forall (fun ev => Q (fst ev)) (m h).1.

(** The exception of the credentials check, raised when a credential is
    missing. *)
Definition sin_credenciales (environ : string -> option string) (e : exn) : Prop :=
  (environ "SADE_USER_CECILIA" = None \/ environ "SADE_PASSWORD_CECILIA" = None) /\
  e = ValueError "Environment variables for SADE credentials not found".

(** The steps of a complete authentication with the credentials of the
    environment; only the navigation when a credential is missing. *)
Definition fases_login (environ : string -> option string) : list fase :=
  FNavega "http://euc.gcba.gob.ar/ccoo-web/" ::
  match environ "SADE_USER_CECILIA", environ "SADE_PASSWORD_CECILIA" with
  | Some u, Some p => [FCredencial 0 (Texto u); FCredencial 1 (Texto p); FEnvia]
  | _, _ => []
  end.

(** The time slept, in milliseconds. *)
Fixpoint dormido (t : traza) : Z :=
  match t with
  | [] => 0
  | (Sleep ms, _) :: t' => ms + dormido t'
  | _ :: t' => dormido t'
  end.

(** A save goes where [save_path] says, with a transfer of the world. *)
Definition guarda_transferencia (w : mundo) (home : string) (a : accion) : Prop :=
  match a with
  | SaveAs d ruta =>
      ruta = os_path_join home ["Downloads"; suggested_filename d] /\
      exists h, d = transferencia w h
  | _ => True
  end.

(** The events of an authentication in which nothing raises (lines 23
    to 46), for a user name and a password. *)
Definition traza_login (u p : string) : traza :=
  [(Launch false, Hecho); (NewContext true, Hecho); (NewPage, Hecho);
   (SetDefaultTimeout 30000, Hecho);
   (Goto "http://euc.gcba.gob.ar/ccoo-web/", Hecho);
   (WaitForLoadState "networkidle", Hecho);
   (WaitFor ".form-control.z-textbox" 0, Hecho);
   (Fill ".form-control.z-textbox" 0 (Texto u), Hecho);
   (Fill ".form-control.z-textbox" 1 (Texto p), Hecho);
   (ClickLocator ".btn.btn-default.z-button", Hecho);
   (WaitForLoadState "networkidle", Hecho); (Sleep 2000, Hecho)].

(** ** The input selector *)

Example obtener_ejemplo :
  obtener_comunicaciones
    (con_hoja (Hoja ["CCOO N°"; "ORGANISMO"]
                    [[Texto "EX-100"; NaN]; [Texto "EX-200"; Texto "X"];
                     [Texto "EX-300"; NaN]]))
    "casos.xlsx"
  = inr [Texto "EX-100"; Texto "EX-300"].
Proof. reflexivity. Qed.

(** Blank identifiers and repeated ones stay in the list. *)
Example obtener_blancos_y_repetidos :
  obtener_comunicaciones
    (con_hoja (Hoja ["FECHA"; "ORGANISMO"; "CCOO N°"]
                    [[Numero 1; NaN; Texto "EX-7"]; [Numero 2; NaN];
                     [Numero 3; Texto "X"; Texto "EX-8"];
                     [Numero 4; NaN; Texto "EX-7"]]))
    "casos.xlsx"
  = inr [Texto "EX-7"; NaN; Texto "EX-7"].
Proof. reflexivity. Qed.

(** Identifiers that are all numbers come back as numbers: integers when
    none is missing, floats when one is. *)
Example obtener_numeros :
  obtener_comunicaciones
    (con_hoja (Hoja ["CCOO N°"; "ORGANISMO"]
                    [[Texto "00100"; NaN]; [Numero 7; NaN]; [Texto "1e3"; Texto "X"]]))
    "casos.xlsx"
  = inr [Flotante (Texto "00100"); Flotante (Numero 7)] /\
  obtener_comunicaciones
    (con_hoja (Hoja ["CCOO N°"; "ORGANISMO"]
                    [[Texto "00100"; NaN]; [Numero 7; NaN]; [NaN; NaN]]))
    "casos.xlsx"
  = inr [Flotante (Texto "00100"); Flotante (Numero 7); NaN] /\
  obtener_comunicaciones
    (con_hoja (Hoja ["CCOO N°"; "ORGANISMO"]
                    [[Texto "00100"; NaN]; [Numero 7; NaN]; [Texto " -12 "; Texto "X"]]))
    "casos.xlsx"
  = inr [Numero 100; Numero 7].
Proof. repeat split; reflexivity. Qed.

(** A whole number above [INT64_MAX] next to an empty cell leaves the
    column as the reader handed it: the empty cell is the empty text, not
    a missing value. *)
Example obtener_entero_grande :
  obtener_comunicaciones
    (con_hoja (Hoja ["CCOO N°"; "ORGANISMO"]
                    [[Texto "18446744073709551615"; NaN]; [NaN; NaN]]))
    "casos.xlsx"
  = inr [Texto "18446744073709551615"; Texto ""] /\
  obtener_comunicaciones
    (con_hoja (Hoja ["CCOO N°"; "ORGANISMO"]
                    [[Texto "EX-1"; Texto "18446744073709551615"];
                     [Texto "EX-2"; NaN]]))
    "casos.xlsx"
  = inr [].
Proof. split; reflexivity. Qed.

Lemma esta_en_indice (nombre : string) (l : list string) :
  esta_en nombre l = true <-> is_Some (indice nombre l).
Proof.
  induction l as [|n l IH]; cbn.
  - split; [discriminate|]. by intros [? ?].
  - rewrite (String.eqb_sym nombre n).
    destruct (String.eqb n nombre); cbn; [by split; eauto|].
    rewrite IH. destruct (indice nombre l); cbn; split; eauto;
      intros [? ?]; discriminate.
Qed.

Lemma esta_en_sin_indice (nombre : string) (l : list string) :
  indice nombre l = None -> esta_en nombre l = false.
Proof.
  intros Hn. destruct (esta_en nombre l) eqn:He; [|done].
  apply esta_en_indice in He. rewrite Hn in He. by destruct He.
Qed.

Lemma getitem_filter (P : string -> bool) (df : DataFrame) (nombre : string) :
  P nombre = true ->
  getitem (List.filter (fun col => P (fst col)) df) nombre = getitem df nombre.
Proof.
  intros HP. induction df as [|[n col] df IH]; cbn; [done|].
  destruct (P n) eqn:Hn; cbn.
  - by rewrite IH.
  - destruct (String.eqb_spec n nombre) as [->|_]; [congruence|done].
Qed.

Lemma getitem_columnas_desde (k : nat) (nombres : list string)
    (fs : list (list celda)) (nombre : string) (i : nat) :
  indice nombre nombres = Some i ->
  getitem (columnas_desde k nombres fs) nombre
  = inr (inferir (map (celda_en (k + i)) fs)).
Proof.
  revert k i. induction nombres as [|n ns IH]; intros k i; cbn; [discriminate|].
  destruct (String.eqb n nombre).
  - intros [= <-]. by rewrite Nat.add_0_r.
  - destruct (indice nombre ns) as [i'|]; cbn; [|discriminate].
    intros [= <-]. rewrite (IH (S k) i' eq_refl). do 4 f_equal. lia.
Qed.

Lemma getitem_getitem_mascara (df : DataFrame) (m : list bool) (nombre : string) :
  getitem (getitem_mascara df m) nombre =
  match getitem df nombre with
  | inl e => inl e
  | inr col => inr (con_mascara m col)
  end.
Proof.
  induction df as [|[n col] df IH]; cbn; [done|].
  by destruct (String.eqb n nombre).
Qed.

Lemma getitem_esta_en (df : DataFrame) (nombre : string) (col : Series) :
  getitem df nombre = inr col -> esta_en nombre (map fst df) = true.
Proof.
  induction df as [|[n c] df IH]; cbn; [discriminate|].
  rewrite (String.eqb_sym nombre n).
  destruct (String.eqb n nombre); cbn; auto.
Qed.

Lemma read_excel_con_columnas (h : hoja) (i j : nat) :
  indice "CCOO N°" (encabezado h) = Some i ->
  indice "ORGANISMO" (encabezado h) = Some j ->
  read_excel h columnas
  = inr (List.filter (fun col => esta_en (fst col) columnas)
           (columnas_desde 0 (encabezado h) (filas h))).
Proof.
  intros Hi Hj.
  assert (Hci : esta_en "CCOO N°" (encabezado h) = true)
    by (apply esta_en_indice; rewrite Hi; eauto).
  assert (Hcj : esta_en "ORGANISMO" (encabezado h) = true)
    by (apply esta_en_indice; rewrite Hj; eauto).
  unfold read_excel, columnas. cbn [List.filter]. rewrite Hci, Hcj. cbn [negb].
  destruct (encabezado h); [discriminate|done].
Qed.

(** What the code computes, column by column: the identifier column as the
    parser typed it, under the mask of the missing values of the organism
    column as the parser typed it. *)
Lemma obtener_por_columnas (disco : archivos) (archivo : string) (h : hoja)
    (i j : nat) :
  disco archivo = Some h ->
  indice "CCOO N°" (encabezado h) = Some i ->
  indice "ORGANISMO" (encabezado h) = Some j ->
  obtener_comunicaciones disco archivo
  = inr (con_mascara (map isnull (inferir (map (celda_en j) (filas h))))
                     (inferir (map (celda_en i) (filas h)))).
Proof.
  intros Hd Hi Hj.
  unfold obtener_comunicaciones. rewrite Hd. cbn [mbind sum_bind].
  rewrite (read_excel_con_columnas h i j Hi Hj).
  set (df := List.filter _ (columnas_desde 0 (encabezado h) (filas h))).
  assert (Hgj : getitem df "ORGANISMO" = inr (inferir (map (celda_en j) (filas h)))).
  { unfold df.
    rewrite (getitem_filter (fun n => esta_en n columnas)) by done.
    by rewrite (getitem_columnas_desde 0 _ _ _ j). }
  assert (Hgi : getitem df "CCOO N°" = inr (inferir (map (celda_en i) (filas h)))).
  { unfold df.
    rewrite (getitem_filter (fun n => esta_en n columnas)) by done.
    by rewrite (getitem_columnas_desde 0 _ _ _ i). }
  cbn [mbind sum_bind]. rewrite Hgj. cbn [mbind sum_bind].
  set (m := map isnull (inferir (map (celda_en j) (filas h)))).
  unfold drop. cbn [List.filter].
  assert (Hm : esta_en "ORGANISMO" (map fst (getitem_mascara df m)) = true).
  { eapply getitem_esta_en. rewrite getitem_getitem_mascara, Hgj. reflexivity. }
  rewrite Hm. cbn [negb mbind sum_bind].
  rewrite (getitem_filter (fun n => negb (esta_en n ["ORGANISMO"]))) by done.
  rewrite getitem_getitem_mascara, Hgi. cbn [mbind sum_bind].
  reflexivity.
Qed.

(** *** What the parser makes of a column *)

Lemma palabra_booleana_no_na (s : string) (b : bool) :
  palabra_booleana s = Some b -> esta_en s na_values = false.
Proof.
  unfold palabra_booleana.
  destruct (esta_en s ["True"; "TRUE"; "true"]) eqn:Hv.
  - intros _. cbn in Hv. rewrite !orb_true_iff in Hv.
    destruct Hv as [Hv|[Hv|[Hv|Hv]]]; [| | |done];
      apply String.eqb_eq in Hv; subst s; reflexivity.
  - destruct (esta_en s ["False"; "FALSE"; "false"]) eqn:Hf; [|discriminate].
    intros _. cbn in Hf. rewrite !orb_true_iff in Hf.
    destruct Hf as [Hf|[Hf|[Hf|Hf]]]; [| | |done];
      apply String.eqb_eq in Hf; subst s; reflexivity.
Qed.

Lemma ver_es_na (c : celda) (v : vista) :
  ver c = Some v -> es_na c = es_nulo v.
Proof.
  destruct c as [|s|z|c|b]; cbn [ver es_na].
  - by intros [= <-].
  - destruct (esta_en s na_values); [by intros [= <-]|].
    destruct (floatify s) as [[z|]|]; [|by intros [= <-]|discriminate].
    destruct (_ && _); [by intros [= <-]|discriminate].
  - intros [= <-]. by destruct (_ && _).
  - by intros [= <-].
  - discriminate.
Qed.

Lemma leida_isnull (c v : celda) : leida c v -> isnull v = es_na c.
Proof.
  intros [c' H|c' H|c' z H _|c' H|s b H]; cbn [isnull es_na].
  - by rewrite H.
  - rewrite H. by destruct c'.
  - by rewrite H.
  - by rewrite H.
  - by rewrite (palabra_booleana_no_na s b).
Qed.

Lemma leida_sanear (c : celda) : leida c (sanear c).
Proof.
  unfold sanear. destruct (es_na c) eqn:H; by constructor.
Qed.

Lemma leida_como_booleano (c v : celda) :
  como_booleano (sanear c) = Some v -> leida c v.
Proof.
  unfold sanear. destruct (es_na c) eqn:H; cbn.
  - intros [= <-]. by constructor.
  - destruct c as [|s|z|c|b]; cbn; try discriminate.
    + destruct (palabra_booleana s) as [b|] eqn:Hb; cbn; [|discriminate].
      intros [= <-]. by constructor.
    + intros [= <-]. by constructor.
Qed.

Lemma maybe_convert_bool_leida (col : list celda) :
  Forall2 leida col (maybe_convert_bool (map sanear col)).
Proof.
  unfold maybe_convert_bool.
  destruct (mapM como_booleano (map sanear col)) as [bs|] eqn:Hbs; cbn.
  - apply mapM_Some_1 in Hbs. apply Forall2_fmap_l in Hbs.
    eapply Forall2_impl; [exact Hbs|]. intros c v. apply leida_como_booleano.
  - apply Forall2_fmap_r, Forall_Forall2_diag, Forall_forall.
    intros c _. apply leida_sanear.
Qed.


Lemma a_flotante_leida (col : list celda) (vs : list vista) :
  Forall2 (fun c v => ver c = Some v) col vs ->
  Forall2 leida col (zip_with a_flotante col vs).
Proof.
  induction 1 as [|c v col vs Hv _ IH]; cbn; constructor; [|done].
  apply ver_es_na in Hv. destruct v; cbn; by constructor.
Qed.

Lemma a_entero_leida (col : list celda) (vs : list vista) :
  Forall2 (fun c v => ver c = Some v) col vs ->
  existsb es_nulo vs || existsb es_real vs = false ->
  Forall2 leida col (map a_entero vs).
Proof.
  induction 1 as [|c v col vs Hv _ IH]; cbn; [constructor|].
  intros Hn. apply orb_false_iff in Hn as [Hn Hr].
  apply orb_false_iff in Hn as [Hn1 Hn2]. apply orb_false_iff in Hr as [Hr1 Hr2].
  constructor; [|apply IH; by rewrite Hn2, Hr2].
  destruct v; try discriminate. cbn. apply leida_entero; [|done].
  by rewrite (ver_es_na _ _ Hv).
Qed.







Lemma leidas_isnull (col vals : list celda) :
  Forall2 leida col vals -> map isnull vals = map es_na col.
Proof.
  induction 1 as [|c v col vals Hcv _ IH]; cbn [map]; [done|].
  by rewrite (leida_isnull c v Hcv), IH.
Qed.






Lemma obtener_sin_organismo (disco : archivos) (archivo : string) (h : hoja) :
  disco archivo = Some h ->
  indice "ORGANISMO" (encabezado h) = None ->
  obtener_comunicaciones disco archivo
  = inl (if hoja_vacia h then KeyError "'ORGANISMO'"
         else ValueError
                ("Usecols do not match columns, columns expected but not found: "
                   +:+ repr_lista
                         (List.filter (fun c => negb (esta_en c (encabezado h)))
                            columnas))).
Proof.
  intros Hd Hj. unfold obtener_comunicaciones. rewrite Hd. cbn [mbind sum_bind].
  unfold read_excel, hoja_vacia, columnas. cbn [List.filter].
  rewrite (esta_en_sin_indice _ _ Hj). cbn [negb].
  destruct (encabezado h) as [|n ns], (filas h) as [|f fs]; try reflexivity;
    by destruct (negb (esta_en "CCOO N°" _)).
Qed.

(** C7: when the chosen spreadsheet has no "ORGANISMO" column the selector
    raises, the exception ends the program, and nothing was done on the
    browser: the trace of the run is empty. *)
Theorem main_sin_organismo (w : mundo) (environ : string -> option string)
    (home : string) (disco : archivos) (archivo : string) (h : hoja) :
  disco archivo = Some h ->
  indice "ORGANISMO" (encabezado h) = None ->
  exists e,
    obtener_comunicaciones disco archivo = inl e /\
    correr_main w environ home disco archivo = ([], inl e).
Proof.
  intros Hd Hj. eexists. split; [by apply (obtener_sin_organismo _ _ h)|].
  unfold correr_main, main. by rewrite (obtener_sin_organismo _ _ h).
Qed.

Lemma main_sin_organismo_witness :
  exists e,
    obtener_comunicaciones (con_hoja (Hoja ["CCOO N°"] [[Texto "100"]])) "casos.xlsx"
    = inl e /\
    correr_main mundo_fiable entorno_cecilia "/home/cecilia"
      (con_hoja (Hoja ["CCOO N°"] [[Texto "100"]])) "casos.xlsx"
    = ([], inl e).
Proof.
  apply (main_sin_organismo _ _ _ _ _ (Hoja ["CCOO N°"] [[Texto "100"]]));
    reflexivity.
Defined.

(** ** Reading traces: the checks tell good traces from bad ones *)

Example errores_registrados_rechaza :
  errores_registrados [FFalla timeout_descarga; FBusca (Texto "A2")] = false /\
  errores_registrados [FFalla timeout_descarga; FError "Error A1"] = false.
Proof. split; reflexivity. Qed.

Example descarga_conforme_rechaza :
  descarga_conforme "/home/cecilia" [FDescarga 1; FEspera 30000] = false /\
  descarga_conforme "/home/cecilia" [FDescarga 0; FEspera 5000] = false /\
  descarga_conforme "/home/cecilia"
    [FObtiene (Download "informe.pdf" "A1"); FVuelve] = false /\
  descarga_conforme "/home/cecilia"
    [FObtiene (Download "informe.pdf" "A1");
     FGuarda "/home/cecilia/Downloads/A1.pdf" (Download "informe.pdf" "A1")] = false.
Proof. repeat split; reflexivity. Qed.

Example vuelta_a_la_lista_rechaza :
  tras_guardar_vuelve
    [FGuarda "/home/cecilia/Downloads/informe.pdf" (Download "informe.pdf" "A1");
     FBusca (Texto "A2")] = false /\
  tras_error_busca [FError "Error"; FVuelve; FBusca (Texto "A2")] = false.
Proof. split; reflexivity. Qed.

Example os_path_join_ejemplos :
  os_path_join "/home/cecilia" ["Downloads"; "informe.pdf"]
  = "/home/cecilia/Downloads/informe.pdf" /\
  os_path_join "/" ["Downloads"; "informe.pdf"] = "/Downloads/informe.pdf" /\
  os_path_join "/home/cecilia" ["Downloads"; "/tmp/x"] = "/tmp/x".
Proof. repeat split; reflexivity. Qed.

(** ** The loop, turn by turn *)

Lemma fases_app (t1 t2 : traza) : fases (t1 ++ t2) = fases t1 ++ fases t2.
Proof. unfold fases. apply flat_map_app. Qed.

Ltac casos_mundo :=
  repeat match goal with
         | |- context [falla ?w ?h ?a] => destruct (falla w h a) eqn:?; cbn
         | |- context [exn_exception ?e] => destruct (exn_exception e) eqn:?; cbn
         end.

Lemma iteracion_forma (w : mundo) (home : string) (c : celda) (h : traza) :
  forma home c (fases (iteracion w home c h).1) (iteracion w home c h).2.
Proof.
  unfold iteracion, descargar, expect_download, hacer, local, try_.
  unfold mbind, M_bind. cbn. casos_mundo.
  all: try (constructor; fail).
  all: first
    [ apply (forma_saltada home c [_; _]); [constructor|done]
    | apply (forma_saltada home c [_; _; _]); [constructor|done]
    | apply (forma_saltada home c [_; _; _; _]); [constructor|done]
    | apply (forma_rota_descarga home c [_; _]); [constructor|done]
    | apply (forma_rota_descarga home c [_; _; _]); [constructor|done]
    | apply (forma_rota_descarga home c [_; _; _; _]); [constructor|done] ].
Qed.

Lemma for_each_cons {A : Type} (f : A -> M unit) (x : A) (xs : list A) (h : traza) :
  for_each (x :: xs) f h =
  match f x h with
  | (t1, inl e) => (t1, inl e)
  | (t1, inr _) =>
      match for_each xs f (h ++ t1) with
      | (t2, r) => (t1 ++ t2, r)
      end
  end.
Proof. reflexivity. Qed.

Lemma bucle_corrida (w : mundo) (home : string) (cs : list celda) (h : traza) :
  corrida home cs (fases (for_each cs (iteracion w home) h).1)
          (for_each cs (iteracion w home) h).2.
Proof.
  revert h. induction cs as [|c cs IH]; intros h.
  - constructor.
  - rewrite for_each_cons.
    pose proof (iteracion_forma w home c h) as Hf.
    destruct (iteracion w home c h) as [t1 [e|[]]]; cbn in Hf |- *.
    + by constructor.
    + specialize (IH (h ++ t1)).
      destruct (for_each cs (iteracion w home) (h ++ t1)) as [t2 r].
      cbn in IH |- *. rewrite fases_app. by constructor.
Qed.

(** ** The whole run *)

Lemma autenticar_login (w : mundo) (environ : string -> option string) (h : traza) :
  forallb es_fase_login (fases (autenticar w environ h).1) = true.
Proof.
  unfold autenticar, getenv, hacer, local, raise.
  unfold mbind, M_bind, mret, M_ret. cbn. casos_mundo; try reflexivity.
  all: destruct (environ "SADE_USER_CECILIA"), (environ "SADE_PASSWORD_CECILIA");
    cbn; casos_mundo; reflexivity.
Qed.

(** The run, taken apart: entering the [with] block raises, or the block
    runs between [SyncPlaywright] and [Stop] and its outcome is the run's. *)
Lemma correr_eq (w : mundo) (environ : string -> option string)
    (home : string) (cs : list celda) :
  correr w environ home cs =
  match falla w [] SyncPlaywright with
  | Some e => ([(SyncPlaywright, Lanzo e)], inl e)
  | None =>
      match autenticar w environ [(SyncPlaywright, Hecho)] with
      | (ta, inl e) => ((SyncPlaywright, Hecho) :: ta ++ [(Stop, Hecho)], inl e)
      | (ta, inr _) =>
          match for_each cs (iteracion w home) ((SyncPlaywright, Hecho) :: ta) with
          | (tb, rb) => ((SyncPlaywright, Hecho) :: (ta ++ tb) ++ [(Stop, Hecho)], rb)
          end
      end
  end.
Proof.
  unfold correr, buscar_comunicaciones, with_sync_playwright, capturar, hacer, local,
    raise.
  unfold mbind, M_bind. cbn.
  destruct (falla w [] SyncPlaywright) as [e|]; [reflexivity|]. cbn.
  destruct (autenticar w environ [(SyncPlaywright, Hecho)]) as [ta [e|[]]]; cbn.
  { reflexivity. }
  destruct (for_each cs (iteracion w home) ((SyncPlaywright, Hecho) :: ta))
    as [tb [e|[]]]; cbn; rewrite <- ?app_assoc; reflexivity.
Qed.

Lemma fases_stop (t : traza) : fases (t ++ [(Stop, Hecho)]) = fases t.
Proof. rewrite fases_app. cbn. apply app_nil_r. Qed.

Lemma fases_sync (t : traza) : fases ((SyncPlaywright, Hecho) :: t) = fases t.
Proof. reflexivity. Qed.

Lemma correr_forma (w : mundo) (environ : string -> option string)
    (home : string) (cs : list celda) :
  forma_corrida home cs (fases (correr w environ home cs).1)
                (correr w environ home cs).2.
Proof.
  rewrite correr_eq.
  destruct (falla w [] SyncPlaywright) as [e|]; [by constructor|].
  pose proof (autenticar_login w environ [(SyncPlaywright, Hecho)]) as Hl.
  destruct (autenticar w environ [(SyncPlaywright, Hecho)]) as [ta [e|[]]];
    cbn [fst snd] in *.
  - rewrite fases_sync, fases_stop. by constructor.
  - pose proof (bucle_corrida w home cs ((SyncPlaywright, Hecho) :: ta)) as Hc.
    destruct (for_each cs (iteracion w home) ((SyncPlaywright, Hecho) :: ta))
      as [tb rb]; cbn [fst snd] in *.
    rewrite fases_sync, fases_stop, fases_app. by constructor.
Qed.

Lemma login_sin_intentos (fa : list fase) :
  forallb es_fase_login fa = true -> List.filter es_intento fa = [].
Proof.
  induction fa as [|f fa IH]; cbn; [done|].
  intros [Hf Hfa]%andb_prop. rewrite (IH Hfa). by destruct f.
Qed.

Lemma forma_intentos (home : string) (c : celda) (b : list fase) (r : exn + unit) :
  forma home c b r ->
  List.filter es_intento b `prefix_of` ciclo c /\
  (r = inr tt -> List.filter es_intento b = ciclo c).
Proof.
  destruct 1 as [d|fs e Hfs Hex|fs e Hfs Hex|e|e|e|d e]; cbn.
  - done.
  - destruct Hfs; done.
  - destruct Hfs; done.
  - split; [by exists [FDispara; FAbre 29; FDescarga 0]|done].
  - split; [by exists [FAbre 29; FDescarga 0]|done].
  - split; [by exists [FDescarga 0]|done].
  - done.
Qed.

Lemma corrida_intentos (home : string) (cs : list celda) (fl : list fase)
    (r : exn + unit) :
  corrida home cs fl r ->
  List.filter es_intento fl `prefix_of` flat_map ciclo cs /\
  (r = inr tt -> List.filter es_intento fl = flat_map ciclo cs).
Proof.
  induction 1 as [|c cs b fs r Hb _ [IHp IHe]|c cs b e Hb].
  - done.
  - apply forma_intentos in Hb as [_ Hb]. specialize (Hb eq_refl).
    rewrite List.filter_app, Hb.
    change (flat_map ciclo (c :: cs)) with (ciclo c ++ flat_map ciclo cs).
    split; [by apply prefix_app|]. intros Hr. by rewrite (IHe Hr).
  - apply forma_intentos in Hb as [Hb _].
    split; [|done].
    change (flat_map ciclo (c :: cs)) with (ciclo c ++ flat_map ciclo cs).
    by apply prefix_app_r.
Qed.

(** C8: the attempts of a run are, in order, the cycle search, trigger,
    open, download of the first identifier, then that of the second, and so
    on: each step once per identifier, none repeated, none out of order.  A
    run that ends normally goes through the whole list; a run that an
    exception ends stops inside it. *)
Theorem buscar_comunicaciones_secuencial (w : mundo)
    (environ : string -> option string) (home : string) (cs : list celda) :
  intentos (correr w environ home cs).1 `prefix_of` flat_map ciclo cs /\
  ((correr w environ home cs).2 = inr tt ->
   intentos (correr w environ home cs).1 = flat_map ciclo cs).
Proof.
  unfold intentos.
  destruct (correr_forma w environ home cs) as [fa e Hfa|fa fl r Hfa Hc].
  - rewrite (login_sin_intentos _ Hfa). split; [apply prefix_nil|done].
  - rewrite List.filter_app, (login_sin_intentos _ Hfa). cbn.
    by apply (corrida_intentos home).
Qed.

Lemma buscar_comunicaciones_secuencial_witness :
  intentos (correr mundo_fiable entorno_cecilia "/home/cecilia"
              [Texto "A1"; Texto "A2"]).1
  = flat_map ciclo [Texto "A1"; Texto "A2"].
Proof.
  apply (proj2 (buscar_comunicaciones_secuencial
                  mundo_fiable entorno_cecilia "/home/cecilia"
                  [Texto "A1"; Texto "A2"])).
  reflexivity.
Defined.

Lemma login_sin_errores (fa fl : list fase) :
  forallb es_fase_login fa = true ->
  errores_registrados (fa ++ fl) = errores_registrados fl.
Proof.
  induction fa as [|f fa IH]; cbn; [done|].
  intros [Hf Hfa]%andb_prop. destruct f; try discriminate; by apply IH.
Qed.

Lemma corrida_errores (home : string) (cs : list celda) (fl : list fase)
    (r : exn + unit) :
  corrida home cs fl r -> errores_registrados fl = true.
Proof.
  induction 1 as [|c cs b fs r Hb _ IH|c cs b e Hb].
  - done.
  - inversion Hb as [d|fb e Hfb Hex| | | | |]; subst; cbn; [done|].
    destruct Hfb; cbn; rewrite Hex; unfold mensaje_error;
      by rewrite String.eqb_refl.
  - inversion Hb as [ | |fb e' Hfb Hex| | | |]; subst; try done.
    destruct Hfb; cbn; by rewrite Hex.
Qed.

(** C5, as the code has it: whenever an action of the download step
    raises an exception of the class [Exception], the line printed next is
    "Error descargando archivo de comunicación " followed by the text of
    the exception; the identifier being processed is not put into the
    line.  An exception outside that class ([KeyboardInterrupt],
    [SystemExit]) is not caught: nothing is printed and the run ends
    there. *)
Theorem error_descarga_registrado (w : mundo)
    (environ : string -> option string) (home : string) (cs : list celda) :
  errores_registrados (fases (correr w environ home cs).1) = true.
Proof.
  destruct (correr_forma w environ home cs) as [fa e Hfa|fa fl r Hfa Hc].
  - rewrite <- (app_nil_r fa). by rewrite login_sin_errores.
  - rewrite login_sin_errores by done. by apply (corrida_errores home cs fl r).
Qed.

(** The download of "A2" times out: the line printed does not mention
    "A2". *)
Lemma error_descarga_sin_identificador :
  let tr := (correr (mundo_sin_descarga 1) entorno_cecilia "/home/cecilia"
               [Texto "A1"; Texto "A2"; Texto "A3"]).1 in
  map fst (guardadas tr) = [Texto "A1"; Texto "A3"] /\
  lineas tr =
    ["Error descargando archivo de comunicación Timeout 30000ms exceeded while waiting for event download"] /\
  existsb (contiene "A2") (lineas tr) = false.
Proof. vm_compute. done. Qed.

(** ** The download step *)

Lemma append_assoc (a b c : string) : (a +:+ b) +:+ c = a +:+ b +:+ c.
Proof.
  induction a as [|x a IH]; [done|].
  change (String x ((a +:+ b) +:+ c) = String x (a +:+ b +:+ c)).
  by rewrite IH.
Qed.

Lemma endswith_sep_append (a b : string) :
  b <> "" -> endswith_sep (a +:+ b) = endswith_sep b.
Proof.
  intros Hb. induction a as [|x a IH]; [done|].
  change (String x a +:+ b) with (String x (a +:+ b)).
  cbn [endswith_sep]. rewrite IH.
  destruct (a +:+ b) eqn:Hab; [|done].
  destruct a, b; done.
Qed.

(** [os.path.join(home, "Downloads", nombre)] for a home directory and a
    plain file name. *)
Lemma os_path_join_descargas (home nombre : string) :
  home <> "" -> endswith_sep home = false -> startswith_sep nombre = false ->
  os_path_join home ["Downloads"; nombre] = home +:+ "/Downloads/" +:+ nombre.
Proof.
  intros Hh He Hn. unfold os_path_join. cbn [fold_left].
  assert (Hj : join2 home "Downloads" = home +:+ "/Downloads").
  { unfold join2. cbn [startswith_sep Ascii.eqb Bool.eqb]. rewrite He.
    destruct home; done. }
  rewrite Hj. unfold join2. rewrite Hn.
  rewrite endswith_sep_append by done.
  assert (String.eqb (home +:+ "/Downloads") "" = false) as -> by (destruct home; done).
  cbn [endswith_sep orb Ascii.eqb Bool.eqb].
  by rewrite append_assoc.
Qed.

Lemma download_eqb_refl (d : download) : download_eqb d d = true.
Proof. unfold download_eqb. by rewrite !String.eqb_refl. Qed.

Lemma login_descarga_conforme (home : string) (fa fl : list fase) :
  forallb es_fase_login fa = true ->
  descarga_conforme home (fa ++ fl) = descarga_conforme home fl.
Proof.
  induction fa as [|f fa IH]; cbn; [done|].
  intros [Hf Hfa]%andb_prop. destruct f; try discriminate; by apply IH.
Qed.

Lemma corrida_descarga_conforme (home : string) (cs : list celda)
    (fl : list fase) (r : exn + unit) :
  corrida home cs fl r -> descarga_conforme home fl = true.
Proof.
  induction 1 as [|c cs b fs r Hb _ IH|c cs b e Hb].
  - done.
  - inversion Hb as [d|fb e Hfb Hex| | | | |]; subst; cbn.
    + unfold save_path. by rewrite download_eqb_refl, String.eqb_refl.
    + destruct Hfb; cbn; done.
  - inversion Hb as [ | |fb e' Hfb Hex| | | |]; subst; cbn; try done.
    + by destruct Hfb.
    + unfold save_path. by rewrite download_eqb_refl, String.eqb_refl.
Qed.

Lemma autenticar_sin_fallos (w : mundo) (environ : string -> option string)
    (u p : string) (h : traza) :
  environ "SADE_USER_CECILIA" = Some u ->
  environ "SADE_PASSWORD_CECILIA" = Some p ->
  (forall h a, es_autenticacion a = true -> falla w h a = None) ->
  exists t,
    autenticar w environ h = (t, inr tt) /\
    fases t = [FNavega portal; FCredencial 0 (Texto u); FCredencial 1 (Texto p);
               FEnvia].
Proof.
  intros Hu Hp Hw.
  unfold autenticar, getenv, hacer, local, raise.
  unfold mbind, M_bind, mret, M_ret. cbn.
  repeat (rewrite Hw by reflexivity; cbn).
  rewrite Hu, Hp. cbn.
  repeat (rewrite Hw by reflexivity; cbn).
  eexists. split; reflexivity.
Qed.

Lemma for_each_paso {A : Type} (f : A -> M unit) (x : A) (xs : list A)
    (h t1 t2 : traza) (r : exn + unit) :
  f x h = (t1, inr tt) ->
  for_each xs f (h ++ t1) = (t2, r) ->
  for_each (x :: xs) f h = (t1 ++ t2, r).
Proof. intros H1 H2. by rewrite for_each_cons, H1, H2. Qed.

Lemma iteracion_fiable (w : mundo) (home : string) (c : celda) (h : traza) :
  (forall h a, falla w h a = None) ->
  exists t d,
    iteracion w home c h = (t, inr tt) /\
    fases t = ciclo_completo home c d.
Proof.
  intros Hw. unfold iteracion, try_, descargar, expect_download, hacer, local.
  unfold mbind, M_bind. cbn.
  repeat (rewrite Hw; cbn).
  eexists _, _. split; reflexivity.
Qed.

Lemma bucle_fiable (w : mundo) (home : string) (cs : list celda) (h : traza) :
  (forall h a, falla w h a = None) ->
  exists t ds,
    for_each cs (iteracion w home) h = (t, inr tt) /\
    length ds = length cs /\
    fases t = flat_map (fun cd => ciclo_completo home cd.1 cd.2) (zip cs ds).
Proof.
  intros Hw. revert h. induction cs as [|c cs IH]; intros h.
  - by exists [], [].
  - destruct (iteracion_fiable w home c h Hw) as (t1 & d & Hit & Hf1).
    destruct (IH (h ++ t1)) as (t2 & ds & Hfe & Hl & Hf2).
    exists (t1 ++ t2), (d :: ds). split; [by apply for_each_paso|].
    split; [by cbn; rewrite Hl|].
    rewrite fases_app, Hf1, Hf2. reflexivity.
Qed.

(** C6: in every run the download click is on the first download icon
    (index 0), the download event is awaited with a timeout of 30000 ms, and
    a transfer that arrives is saved next (unless saving raises) at
    [os.path.join(home, "Downloads", suggested_filename)], which for a home
    directory and a plain file name is home/Downloads/name.  And the steps
    are taken: in a run where nothing raises, every identifier of the
    list, in order, is searched and opened, the first download icon is
    clicked, the download is awaited for 30000 ms, the transfer that
    arrives is saved at that path, and the list is returned to. *)
Theorem descarga_primera_con_timeout_a_descargas :
  (forall (w : mundo) (environ : string -> option string) (home : string)
          (cs : list celda),
      descarga_conforme home (fases (correr w environ home cs).1) = true) /\
  (forall home nombre : string,
      home <> "" -> endswith_sep home = false -> startswith_sep nombre = false ->
      os_path_join home ["Downloads"; nombre] = home +:+ "/Downloads/" +:+ nombre) /\
  (forall (w : mundo) (environ : string -> option string) (home : string)
          (cs : list celda) (u p : string),
      environ "SADE_USER_CECILIA" = Some u ->
      environ "SADE_PASSWORD_CECILIA" = Some p ->
      (forall h a, falla w h a = None) ->
      (correr w environ home cs).2 = inr tt /\
      exists ds,
        length ds = length cs /\
        fases (correr w environ home cs).1
        = [FNavega portal; FCredencial 0 (Texto u); FCredencial 1 (Texto p); FEnvia]
            ++ flat_map (fun cd => ciclo_completo home cd.1 cd.2) (zip cs ds)).
Proof.
  split; [|split; [apply os_path_join_descargas|]].
  - intros w environ home cs.
    destruct (correr_forma w environ home cs) as [fa e Hfa|fa fl r Hfa Hc].
    + rewrite <- (app_nil_r fa). by rewrite login_descarga_conforme.
    + rewrite login_descarga_conforme by done.
      by apply (corrida_descarga_conforme home cs fl r).
  - intros w environ home cs u p Hu Hp Hw.
    rewrite correr_eq, Hw.
    destruct (autenticar_sin_fallos w environ u p [(SyncPlaywright, Hecho)] Hu Hp)
      as (ta & -> & Hfa); [by intros; apply Hw|].
    destruct (bucle_fiable w home cs ((SyncPlaywright, Hecho) :: ta) Hw)
      as (tb & ds & -> & Hl & Hfb).
    cbn [fst snd]. split; [done|]. exists ds. split; [done|].
    by rewrite fases_sync, fases_stop, fases_app, Hfa, Hfb.
Qed.

Lemma descarga_primera_con_timeout_a_descargas_witness :
  os_path_join "/home/cecilia" ["Downloads"; "informe.pdf"]
  = "/home/cecilia" +:+ "/Downloads/" +:+ "informe.pdf" /\
  (correr mundo_fiable entorno_cecilia "/home/cecilia" [Texto "A1"; Texto "A2"]).2
  = inr tt /\
  exists ds,
    length ds = 2%nat /\
    fases (correr mundo_fiable entorno_cecilia "/home/cecilia"
             [Texto "A1"; Texto "A2"]).1
    = [FNavega portal; FCredencial 0 (Texto "cecilia");
       FCredencial 1 (Texto "secreto"); FEnvia]
        ++ flat_map (fun cd => ciclo_completo "/home/cecilia" cd.1 cd.2)
             (zip [Texto "A1"; Texto "A2"] ds).
Proof.
  split.
  - apply (proj1 (proj2 descarga_primera_con_timeout_a_descargas));
      [discriminate|reflexivity..].
  - apply (proj2 (proj2 descarga_primera_con_timeout_a_descargas)
             mundo_fiable entorno_cecilia "/home/cecilia"
             [Texto "A1"; Texto "A2"] "cecilia" "secreto");
      reflexivity.
Defined.

(** The run of that witness, spelled out. *)
Example descarga_ejemplo :
  fases (correr mundo_fiable entorno_cecilia "/home/cecilia" [Texto "A1"]).1
  = [FNavega portal; FCredencial 0 (Texto "cecilia");
     FCredencial 1 (Texto "secreto"); FEnvia;
     FBusca (Texto "A1"); FDispara; FAbre 29; FDescarga 0; FEspera 30000;
     FObtiene (Download "informe.pdf" "A1");
     FGuarda "/home/cecilia/Downloads/informe.pdf" (Download "informe.pdf" "A1");
     FVuelve].
Proof. reflexivity. Qed.

(** ** Where the files go *)

Lemma login_guardada (home : string) (fa : list fase) :
  forallb es_fase_login fa = true -> Forall (guardada_en_descargas home) fa.
Proof.
  induction fa as [|f fa IH]; cbn; [constructor|].
  intros [Hf Hfa]%andb_prop. constructor; [by destruct f|auto].
Qed.

Lemma corrida_guardada (home : string) (cs : list celda) (fl : list fase)
    (r : exn + unit) :
  corrida home cs fl r -> Forall (guardada_en_descargas home) fl.
Proof.
  induction 1 as [|c cs b fs r Hb _ IH|c cs b e Hb].
  - constructor.
  - apply Forall_app. split; [|done].
    inversion Hb as [d|fb e Hfb Hex| | | | |]; subst.
    + repeat constructor.
    + destruct Hfb; repeat constructor.
  - inversion Hb as [ | |fb e' Hfb Hex| | | |]; subst; try destruct Hfb;
      repeat constructor.
Qed.

Lemma correr_guardada (w : mundo) (environ : string -> option string)
    (home : string) (cs : list celda) :
  Forall (guardada_en_descargas home) (fases (correr w environ home cs).1).
Proof.
  destruct (correr_forma w environ home cs) as [fa e Hfa|fa fl r Hfa Hc].
  - by apply login_guardada.
  - apply Forall_app. split; [by apply login_guardada|].
    by apply (corrida_guardada home cs fl r).
Qed.

Lemma guardar_otra_ruta (ruta : string) (fs : list fase) (m : gmap string string) :
  Forall (no_guarda_en ruta) fs -> foldl guardar m fs !! ruta = m !! ruta.
Proof.
  intros Hfs. revert m. induction Hfs as [|f fs Hf _ IH]; intros m; cbn; [done|].
  rewrite IH. destruct f; cbn in *; try done. by rewrite lookup_insert_ne.
Qed.

(** C10: the path of every saved download is
    [os.path.join(home, "Downloads", suggested_filename)], whatever the
    identifier; two saves whose transfers suggest the same name go to the
    same path, and unless a still later save goes there too, the disk ends
    up with the content of the later one at that path. *)
Theorem misma_ruta_para_mismo_nombre (w : mundo)
    (environ : string -> option string) (home : string) (cs : list celda) :
  Forall (guardada_en_descargas home) (fases (correr w environ home cs).1) /\
  forall (f1 f2 f3 : list fase) (p1 p2 : string) (d1 d2 : download)
         (disco : gmap string string),
    fases (correr w environ home cs).1
    = f1 ++ FGuarda p1 d1 :: f2 ++ FGuarda p2 d2 :: f3 ->
    suggested_filename d1 = suggested_filename d2 ->
    p1 = p2 /\
    (Forall (no_guarda_en p2) f3 ->
     disco_tras disco (correr w environ home cs).1 !! p1 = Some (contenido d2)).
Proof.
  pose proof (correr_guardada w environ home cs) as Hg.
  split; [done|]. intros f1 f2 f3 p1 p2 d1 d2 disco Hfs Hn.
  unfold disco_tras. rewrite Hfs in Hg |- *.
  apply Forall_app in Hg as [_ Hg]. apply Forall_cons in Hg as [H1 Hg].
  apply Forall_app in Hg as [_ Hg]. apply Forall_cons in Hg as [H2 _].
  cbn in H1, H2. assert (p1 = p2) as -> by congruence.
  split; [done|]. intros H3.
  rewrite foldl_app. cbn [foldl]. rewrite foldl_app. cbn [foldl].
  rewrite guardar_otra_ruta by done. cbn. apply lookup_insert_eq.
Qed.

Lemma misma_ruta_para_mismo_nombre_witness :
  "/home/cecilia/Downloads/informe.pdf" = "/home/cecilia/Downloads/informe.pdf" /\
  disco_tras ∅ (correr mundo_fiable entorno_cecilia "/home/cecilia"
                  [Texto "A1"; Texto "A2"]).1
    !! "/home/cecilia/Downloads/informe.pdf" = Some "A2".
Proof.
  destruct (proj2 (misma_ruta_para_mismo_nombre
                     mundo_fiable entorno_cecilia "/home/cecilia"
                     [Texto "A1"; Texto "A2"])
              [FNavega portal; FCredencial 0 (Texto "cecilia");
               FCredencial 1 (Texto "secreto"); FEnvia;
               FBusca (Texto "A1"); FDispara; FAbre 29; FDescarga 0;
               FEspera 30000; FObtiene (Download "informe.pdf" "A1")]
              [FVuelve; FBusca (Texto "A2"); FDispara; FAbre 29; FDescarga 0;
               FEspera 30000; FObtiene (Download "informe.pdf" "A2")]
              [FVuelve]
              "/home/cecilia/Downloads/informe.pdf"
              "/home/cecilia/Downloads/informe.pdf"
              (Download "informe.pdf" "A1") (Download "informe.pdf" "A2")
              ∅ eq_refl eq_refl) as [Hp Hd].
  split; [exact Hp|]. apply Hd. repeat constructor.
Defined.

(** ** Runs where only the download step can raise *)

Lemma busquedas_app (t1 t2 : traza) :
  busquedas (t1 ++ t2) = busquedas t1 ++ busquedas t2.
Proof. unfold busquedas. by rewrite fases_app, omap_app. Qed.

Lemma n_busquedas_app (t1 t2 : traza) :
  n_busquedas (t1 ++ t2) = (n_busquedas t1 + n_busquedas t2)%nat.
Proof. unfold n_busquedas. by rewrite busquedas_app, length_app. Qed.

Lemma es_autenticacion_no_descarga (a : accion) :
  es_autenticacion a = true -> es_descarga a = false.
Proof.
  by destruct a.
Qed.

(** What the download step leaves in the trace: no search; and no saved
    file when it raises. *)
Lemma descargar_sin_busquedas (w : mundo) (home : string) (h : traza) :
  busquedas (descargar w home h).1 = [].
Proof.
  unfold descargar, expect_download, hacer, local.
  unfold mbind, M_bind. cbn. casos_mundo; reflexivity.
Qed.

Lemma descargar_falla_sin_guardar (w : mundo) (home : string) (h t : traza)
    (e : exn) (a : celda) :
  descargar w home h = (t, inl e) -> guardadas_desde a (fases t) = [].
Proof.
  unfold descargar, expect_download, hacer, local.
  unfold mbind, M_bind. cbn. casos_mundo; intros [= <- <-]; reflexivity.
Qed.

Lemma guardadas_desde_cola (a : celda) (fs cola : list fase) :
  (forall x, guardadas_desde x cola = []) ->
  guardadas_desde a (fs ++ cola) = guardadas_desde a fs.
Proof.
  intros Hc. revert a. induction fs as [|f fs IH]; intros a; cbn; [done|].
  destruct f; cbn; by rewrite ?IH.
Qed.

Lemma guardadas_desde_app (a : celda) (f1 f2 : list fase) :
  exists a', guardadas_desde a (f1 ++ f2)
             = guardadas_desde a f1 ++ guardadas_desde a' f2.
Proof.
  revert a. induction f1 as [|f f1 IH]; intros a; cbn; [by exists a|].
  destruct f; cbn; try apply IH.
  destruct (IH a) as [a' ->]. by exists a'.
Qed.

Section UnaDescargaFalla.

Variable w : mundo.
Variable home : string.
Variable k : nat.

Hypothesis resto_fiable :
  forall h a, es_descarga a = false -> falla w h a = None.
Hypothesis otras_descargas_fiables :
  forall h a, es_descarga a = true -> n_busquedas h <> S k -> falla w h a = None.
Hypothesis descarga_k_falla :
  forall h, n_busquedas h = S k ->
            exists t e, descargar w home h = (t, inl e) /\ exn_exception e = true.

Lemma descargar_otra (h : traza) (a : celda) :
  n_busquedas h <> S k ->
  exists t,
    descargar w home h = (t, inr tt) /\
    map fst (guardadas_desde a (fases t)) = [a].
Proof.
  intros Hn. unfold descargar, expect_download, hacer, local.
  unfold mbind, M_bind. cbn.
  rewrite otras_descargas_fiables by done. cbn.
  rewrite otras_descargas_fiables
    by (try done; rewrite n_busquedas_app; cbn; lia). cbn.
  rewrite otras_descargas_fiables
    by (try done; rewrite !n_busquedas_app; cbn; lia). cbn.
  eexists. split; reflexivity.
Qed.

(** One turn: it ends normally, searches its identifier, and saves a file
    unless it is the turn at position [k]. *)
Lemma iteracion_una_falla (c : celda) (h : traza) :
  exists t,
    iteracion w home c h = (t, inr tt) /\
    busquedas t = [c] /\
    forall a, map fst (guardadas_desde a (fases t)) =
              if decide (n_busquedas h = k) then [] else [c].
Proof.
  assert (Hit : iteracion w home c h =
                match descargar w home (h ++ ida c) with
                | (t, inl e) =>
                    if exn_exception e
                    then (ida c ++ t ++ [(Print (mensaje_error e), Hecho)], inr tt)
                    else (ida c ++ t, inl e)
                | (t, inr _) => (ida c ++ t ++ vuelta, inr tt)
                end).
  { unfold iteracion, try_, hacer, local.
    unfold mbind at 1 2 3 4 5 6 7 8, M_bind at 1 2 3 4 5 6 7 8. cbn.
    repeat (rewrite resto_fiable by reflexivity; cbn).
    rewrite <- !app_assoc. cbn. unfold ida.
    destruct (descargar w home _) as [t [e|[]]]; cbn.
    - by destruct (exn_exception e).
    - unfold mbind, M_bind. cbn.
      repeat (rewrite resto_fiable by reflexivity; cbn).
      reflexivity. }
  rewrite Hit.
  assert (Hn : n_busquedas (h ++ ida c) = S (n_busquedas h))
    by (rewrite n_busquedas_app; cbn; lia).
  pose proof (descargar_sin_busquedas w home (h ++ ida c)) as Hb.
  destruct (decide (n_busquedas h = k)) as [Hk|Hk].
  - destruct (descarga_k_falla (h ++ ida c)) as (t & e & Hd & Hex); [lia|].
    rewrite Hd in Hb |- *. rewrite Hex. cbn [fst] in Hb.
    eexists. split; [reflexivity|]. split.
    + rewrite !busquedas_app, Hb. reflexivity.
    + intros a. rewrite !fases_app.
      change (fases (ida c)) with [FBusca c; FDispara; FAbre 29].
      cbn [app guardadas_desde]. rewrite guardadas_desde_cola by done.
      by rewrite (descargar_falla_sin_guardar _ _ _ _ _ c Hd).
  - destruct (descargar_otra (h ++ ida c) c) as (t & Hd & Hg); [lia|].
    rewrite Hd in Hb |- *. cbn [fst] in Hb. eexists. split; [reflexivity|]. split.
    + rewrite !busquedas_app, Hb. reflexivity.
    + intros a. rewrite !fases_app.
      change (fases (ida c)) with [FBusca c; FDispara; FAbre 29].
      cbn [app guardadas_desde]. by rewrite guardadas_desde_cola.
Qed.

(** The turns after position [k]: every one saves. *)
Lemma bucle_despues (cs : list celda) (h : traza) :
  (k < n_busquedas h)%nat ->
  exists t,
    for_each cs (iteracion w home) h = (t, inr tt) /\
    busquedas t = cs /\
    forall a, map fst (guardadas_desde a (fases t)) = cs.
Proof.
  revert h. induction cs as [|c cs IH]; intros h Hk.
  - by exists [].
  - destruct (iteracion_una_falla c h) as (t1 & Hit & Hb1 & Hg1).
    destruct (IH (h ++ t1)) as (t2 & Hfe & Hb2 & Hg2).
    { rewrite n_busquedas_app. lia. }
    exists (t1 ++ t2). split; [by apply for_each_paso|]. split.
    + by rewrite busquedas_app, Hb1, Hb2.
    + intros a. rewrite fases_app.
      destruct (guardadas_desde_app a (fases t1) (fases t2)) as [a' ->].
      rewrite map_app, Hg1, Hg2. by destruct (decide _); [lia|].
Qed.

(** The turns from [j] positions before [k]: every one saves but the one
    at [k]. *)
Lemma bucle_hasta (cs : list celda) (h : traza) (j : nat) :
  (n_busquedas h + j = k)%nat ->
  exists t,
    for_each cs (iteracion w home) h = (t, inr tt) /\
    busquedas t = cs /\
    forall a, map fst (guardadas_desde a (fases t)) = delete j cs.
Proof.
  revert h j. induction cs as [|c cs IH]; intros h j Hk.
  - exists []. by destruct j.
  - destruct (iteracion_una_falla c h) as (t1 & Hit & Hb1 & Hg1).
    assert (Hn : n_busquedas (h ++ t1) = S (n_busquedas h))
      by (rewrite n_busquedas_app; unfold n_busquedas at 2; by rewrite Hb1, Nat.add_1_r).
    destruct j as [|j].
    + destruct (bucle_despues cs (h ++ t1)) as (t2 & Hfe & Hb2 & Hg2); [lia|].
      exists (t1 ++ t2). split; [by apply for_each_paso|]. split.
      * by rewrite busquedas_app, Hb1, Hb2.
      * intros a. rewrite fases_app.
        destruct (guardadas_desde_app a (fases t1) (fases t2)) as [a' ->].
        rewrite map_app, Hg1, Hg2. by destruct (decide _); [|lia].
    + destruct (IH (h ++ t1) j) as (t2 & Hfe & Hb2 & Hg2); [lia|].
      exists (t1 ++ t2). split; [by apply for_each_paso|]. split.
      * by rewrite busquedas_app, Hb1, Hb2.
      * intros a. rewrite fases_app.
        destruct (guardadas_desde_app a (fases t1) (fases t2)) as [a' ->].
        rewrite map_app, Hg1, Hg2. by destruct (decide _); [lia|].
Qed.

End UnaDescargaFalla.

(** C3: in a run where nothing raises except the download step of the
    identifier at position [k], which raises an exception of the class
    [Exception], the run ends normally, every identifier of the list is
    searched, opened and its download attempted, in order, and a file is
    saved for every identifier but the one at position [k].  With
    ["A1"; "A2"; "A3"] and the download of "A2" timing out, files are saved
    for "A1" and "A3" only. *)
Theorem una_descarga_falla_y_las_demas_siguen :
  (forall (w : mundo) (environ : string -> option string) (home : string)
          (k : nat) (cs : list celda) (u p : string),
      environ "SADE_USER_CECILIA" = Some u ->
      environ "SADE_PASSWORD_CECILIA" = Some p ->
      (forall h a, es_descarga a = false -> falla w h a = None) ->
      (forall h a, es_descarga a = true -> n_busquedas h <> S k ->
                   falla w h a = None) ->
      (forall h, n_busquedas h = S k ->
                 exists t e, descargar w home h = (t, inl e) /\
                             exn_exception e = true) ->
      (correr w environ home cs).2 = inr tt /\
      busquedas (correr w environ home cs).1 = cs /\
      intentos (correr w environ home cs).1 = flat_map ciclo cs /\
      map fst (guardadas (correr w environ home cs).1) = delete k cs) /\
  (let tr := (correr (mundo_sin_descarga 1) entorno_cecilia "/home/cecilia"
                [Texto "A1"; Texto "A2"; Texto "A3"]).1 in
   busquedas tr = [Texto "A1"; Texto "A2"; Texto "A3"] /\
   guardadas tr = [(Texto "A1", "/home/cecilia/Downloads/informe.pdf");
                   (Texto "A3", "/home/cecilia/Downloads/informe.pdf")]).
Proof.
  split; [|vm_compute; done].
  intros w environ home k cs u p Hu Hp H1 H2 H3.
  assert (Hint : (correr w environ home cs).2 = inr tt ->
                 intentos (correr w environ home cs).1 = flat_map ciclo cs).
  { unfold intentos.
    destruct (correr_forma w environ home cs) as [fa e Hfa|fa fl r Hfa Hc]; [done|].
    rewrite List.filter_app, (login_sin_intentos _ Hfa). cbn.
    by apply (corrida_intentos home). }
  revert Hint. rewrite correr_eq, H1 by reflexivity.
  destruct (autenticar_sin_fallos w environ u p [(SyncPlaywright, Hecho)] Hu Hp)
    as (ta & -> & Hfa).
  { intros h a Ha. by apply H1, es_autenticacion_no_descarga. }
  destruct (bucle_hasta w home k H1 H2 H3 cs ((SyncPlaywright, Hecho) :: ta) k)
    as (tb & -> & Hb & Hg).
  { unfold n_busquedas, busquedas. by rewrite fases_sync, Hfa. }
  cbn [fst snd]. intros Hint. split; [done|]. split; [|split; [by apply Hint|]].
  - unfold busquedas in *. rewrite fases_sync, fases_stop, fases_app, Hfa.
    cbn. exact Hb.
  - unfold guardadas. rewrite fases_sync, fases_stop, fases_app, Hfa.
    cbn. apply Hg.
Qed.

Lemma mundo_sin_descarga_resto (k : nat) (h : traza) (a : accion) :
  es_descarga a = false -> falla (mundo_sin_descarga k) h a = None.
Proof. by destruct a. Qed.

Lemma mundo_sin_descarga_otras (k : nat) (h : traza) (a : accion) :
  es_descarga a = true -> n_busquedas h <> S k ->
  falla (mundo_sin_descarga k) h a = None.
Proof.
  destruct a; try done. intros _ Hn. cbn.
  by destruct (Nat.eqb_spec (n_busquedas h) (S k)).
Qed.

Lemma mundo_sin_descarga_falla (home : string) (k : nat) (h : traza) :
  n_busquedas h = S k ->
  exists t e, descargar (mundo_sin_descarga k) home h = (t, inl e) /\
              exn_exception e = true.
Proof.
  intros Hn. unfold descargar, expect_download, hacer, local.
  unfold mbind, M_bind. cbn.
  rewrite n_busquedas_app, Hn. cbn. rewrite Nat.add_0_r, Nat.eqb_refl.
  by eexists _, _.
Qed.

Lemma una_descarga_falla_y_las_demas_siguen_witness :
  (correr (mundo_sin_descarga 1) entorno_cecilia "/home/cecilia"
     [Texto "A1"; Texto "A2"; Texto "A3"]).2 = inr tt /\
  busquedas (correr (mundo_sin_descarga 1) entorno_cecilia "/home/cecilia"
               [Texto "A1"; Texto "A2"; Texto "A3"]).1
  = [Texto "A1"; Texto "A2"; Texto "A3"] /\
  intentos (correr (mundo_sin_descarga 1) entorno_cecilia "/home/cecilia"
              [Texto "A1"; Texto "A2"; Texto "A3"]).1
  = flat_map ciclo [Texto "A1"; Texto "A2"; Texto "A3"] /\
  map fst (guardadas (correr (mundo_sin_descarga 1) entorno_cecilia "/home/cecilia"
                        [Texto "A1"; Texto "A2"; Texto "A3"]).1)
  = delete 1%nat [Texto "A1"; Texto "A2"; Texto "A3"].
Proof.
  apply (proj1 una_descarga_falla_y_las_demas_siguen
           (mundo_sin_descarga 1) entorno_cecilia "/home/cecilia" 1%nat
           [Texto "A1"; Texto "A2"; Texto "A3"] "cecilia" "secreto").
  - reflexivity.
  - reflexivity.
  - apply mundo_sin_descarga_resto.
  - apply mundo_sin_descarga_otras.
  - apply mundo_sin_descarga_falla.
Defined.

(** ** Credentials *)

Lemma autenticar_sin_credenciales (w : mundo) (environ : string -> option string)
    (h : traza) :
  environ "SADE_USER_CECILIA" = None \/ environ "SADE_PASSWORD_CECILIA" = None ->
  exists e,
    (autenticar w environ h).2 = inl e /\
    (fases (autenticar w environ h).1 = [] \/
     fases (autenticar w environ h).1 = [FNavega portal]).
Proof.
  intros Hc.
  unfold autenticar, getenv, hacer, local, raise.
  unfold mbind, M_bind, mret, M_ret. cbn. casos_mundo; eauto.
  destruct Hc as [-> | ->]; [|destruct (environ "SADE_USER_CECILIA")]; cbn; eauto.
Qed.

Lemma autenticar_sin_credenciales_fiable (w : mundo)
    (environ : string -> option string) (h : traza) :
  environ "SADE_USER_CECILIA" = None \/ environ "SADE_PASSWORD_CECILIA" = None ->
  (forall h a, es_autenticacion a = true -> falla w h a = None) ->
  exists t,
    autenticar w environ h =
    (t, inl (ValueError "Environment variables for SADE credentials not found")) /\
    fases t = [FNavega portal].
Proof.
  intros Hc Hw.
  unfold autenticar, getenv, hacer, local, raise.
  unfold mbind, M_bind, mret, M_ret. cbn.
  repeat (rewrite Hw by reflexivity; cbn).
  destruct Hc as [-> | ->]; [|destruct (environ "SADE_USER_CECILIA")]; cbn;
    eexists; split; reflexivity.
Qed.

(** C2, as the code has it: when the user name or the password is not in
    the environment the run ends with an exception, before any credential
    is typed and before any search; the browser has by then been started
    and sent to the portal's base page, unless one of those steps raised
    first.  When none of them raises, the exception is the [ValueError] of
    the credentials check, and it comes after the navigation. *)
Theorem sin_credenciales_aborta (w : mundo) (environ : string -> option string)
    (home : string) (cs : list celda) :
  environ "SADE_USER_CECILIA" = None \/ environ "SADE_PASSWORD_CECILIA" = None ->
  (exists e,
      (correr w environ home cs).2 = inl e /\
      (fases (correr w environ home cs).1 = [] \/
       fases (correr w environ home cs).1 = [FNavega portal])) /\
  ((forall h a, es_autenticacion a = true -> falla w h a = None) ->
   (correr w environ home cs).2
   = inl (ValueError "Environment variables for SADE credentials not found") /\
   fases (correr w environ home cs).1 = [FNavega portal]).
Proof.
  intros Hc. rewrite correr_eq. split.
  - destruct (falla w [] SyncPlaywright) as [e|]; [by eauto|].
    destruct (autenticar_sin_credenciales w environ [(SyncPlaywright, Hecho)] Hc)
      as (e & Hr & Hf).
    destruct (autenticar w environ [(SyncPlaywright, Hecho)]) as [ta r].
    cbn [fst snd] in Hr, Hf. subst r. cbn [fst snd].
    exists e. split; [done|]. by rewrite fases_sync, fases_stop.
  - intros Hw. rewrite Hw by reflexivity.
    destruct (autenticar_sin_credenciales_fiable w environ
                [(SyncPlaywright, Hecho)] Hc Hw) as (ta & -> & Hfa).
    cbn [fst snd]. by rewrite fases_sync, fases_stop.
Qed.

Lemma sin_credenciales_aborta_witness :
  (exists e,
      (correr mundo_fiable entorno_vacio "/home/cecilia" [Texto "A1"]).2 = inl e /\
      (fases (correr mundo_fiable entorno_vacio "/home/cecilia" [Texto "A1"]).1 = [] \/
       fases (correr mundo_fiable entorno_vacio "/home/cecilia" [Texto "A1"]).1
       = [FNavega portal])) /\
  (correr mundo_fiable entorno_vacio "/home/cecilia" [Texto "A1"]).2
  = inl (ValueError "Environment variables for SADE credentials not found") /\
  fases (correr mundo_fiable entorno_vacio "/home/cecilia" [Texto "A1"]).1
  = [FNavega portal].
Proof.
  destruct (sin_credenciales_aborta mundo_fiable entorno_vacio "/home/cecilia"
              [Texto "A1"] (or_introl eq_refl)) as [Hab Hval].
  split; [exact Hab|]. apply Hval. reflexivity.
Defined.

(** With no credentials and a portal that answers, the exception comes
    after the browser went to the portal and the login form appeared. *)
Lemma sin_credenciales_navega_antes :
  entorno_vacio "SADE_USER_CECILIA" = None /\
  correr mundo_fiable entorno_vacio "/home/cecilia" [Texto "A1"]
  = ([(SyncPlaywright, Hecho); (Launch false, Hecho); (NewContext true, Hecho);
      (NewPage, Hecho); (SetDefaultTimeout 30000, Hecho);
      (Goto "http://euc.gcba.gob.ar/ccoo-web/", Hecho);
      (WaitForLoadState "networkidle", Hecho);
      (WaitFor ".form-control.z-textbox" 0, Hecho); (Stop, Hecho)],
     inl (ValueError "Environment variables for SADE credentials not found")).
Proof. split; reflexivity. Qed.

Lemma sanear_sin_na (col : list celda) :
  forallb (fun c => negb (es_na c)) col = true ->
  map sanear col = map entregada col.
Proof.
  induction col as [|c col IH]; cbn [forallb map]; [done|].
  intros [Hc Hcol]%andb_prop. apply negb_true_iff in Hc.
  unfold sanear at 1. rewrite Hc, IH by done. by destruct c.
Qed.

(** In a column with no missing value every value is read from its cell,
    whatever the numbers of the column. *)
Lemma inferir_leida_sin_na (col : list celda) :
  forallb (fun c => negb (es_na c)) col = true -> Forall2 leida col (inferir col).
Proof.
  intros Hc. unfold inferir, maybe_convert_numeric.
  destruct (mapM ver col) as [vs|] eqn:Hvs; cbn.
  - apply mapM_Some_1 in Hvs.
    destruct (existsb es_grande vs && _).
    + rewrite <- (sanear_sin_na col Hc). apply maybe_convert_bool_leida.
    + destruct (existsb es_nulo vs || existsb es_real vs) eqn:Hf.
      * by apply a_flotante_leida.
      * by apply a_entero_leida.
  - apply maybe_convert_bool_leida.
Qed.

Lemma con_mascara_sin_na {A : Type} (col : list celda) (xs : list A) :
  forallb (fun c => negb (es_na c)) col = true ->
  con_mascara (map es_na col) xs = [].
Proof.
  revert xs. induction col as [|c col IH]; intros xs; cbn [forallb map]; [done|].
  intros [Hc Hcol]%andb_prop. apply negb_true_iff in Hc. rewrite Hc.
  destruct xs; cbn; auto.
Qed.

Lemma forallb_columna (P : celda -> bool) (j : nat) (fs : list (list celda)) :
  forallb (fun fila => P (celda_en j fila)) fs = forallb P (map (celda_en j) fs).
Proof.
  induction fs as [|f fs IH]; cbn; [done|]. by rewrite IH.
Qed.

(** C9: with an empty list, credentials in the environment and an
    authentication in which nothing raises, the run goes to the portal,
    types the user name and the password, submits, makes no attempt of a
    search, an open or a download, and ends normally.  That is the run of
    the program on a spreadsheet where no row has a missing "ORGANISMO":
    none is empty and none holds a text read as a missing value. *)
Theorem lista_vacia_solo_autentica (w : mundo) (environ : string -> option string)
    (home u p : string) :
  environ "SADE_USER_CECILIA" = Some u ->
  environ "SADE_PASSWORD_CECILIA" = Some p ->
  (forall h a, es_autenticacion a = true -> falla w h a = None) ->
  ((correr w environ home []).2 = inr tt /\
   fases (correr w environ home []).1
   = [FNavega portal; FCredencial 0 (Texto u); FCredencial 1 (Texto p); FEnvia] /\
   intentos (correr w environ home []).1 = []) /\
  (forall (disco : archivos) (archivo : string) (h : hoja) (i j : nat),
      disco archivo = Some h ->
      indice "CCOO N°" (encabezado h) = Some i ->
      indice "ORGANISMO" (encabezado h) = Some j ->
      forallb (fun fila => negb (es_na (celda_en j fila))) (filas h) = true ->
      correr_main w environ home disco archivo = correr w environ home []).
Proof.
  intros Hu Hp Hw. split.
  - unfold intentos. rewrite correr_eq, Hw by reflexivity.
    destruct (autenticar_sin_fallos w environ u p [(SyncPlaywright, Hecho)] Hu Hp Hw)
      as (ta & -> & Hfa).
    cbn [for_each mret M_ret fst snd].
    rewrite fases_sync, fases_stop, app_nil_r, Hfa. done.
  - intros disco archivo h i j Hd Hi Hj Hfs.
    unfold correr_main, main.
    rewrite (forallb_columna (fun c => negb (es_na c))) in Hfs.
    rewrite (obtener_por_columnas _ _ h i j Hd Hi Hj).
    rewrite (leidas_isnull _ _ (inferir_leida_sin_na _ Hfs)).
    by rewrite con_mascara_sin_na.
Qed.

Lemma lista_vacia_solo_autentica_witness :
  ((correr mundo_fiable entorno_cecilia "/home/cecilia" []).2 = inr tt /\
   fases (correr mundo_fiable entorno_cecilia "/home/cecilia" []).1
   = [FNavega portal; FCredencial 0 (Texto "cecilia");
      FCredencial 1 (Texto "secreto"); FEnvia] /\
   intentos (correr mundo_fiable entorno_cecilia "/home/cecilia" []).1 = []) /\
  correr_main mundo_fiable entorno_cecilia "/home/cecilia"
    (con_hoja (Hoja ["CCOO N°"; "ORGANISMO"] [[Texto "200"; Texto "X"]]))
    "casos.xlsx"
  = correr mundo_fiable entorno_cecilia "/home/cecilia" [].
Proof.
  destruct (lista_vacia_solo_autentica mundo_fiable entorno_cecilia "/home/cecilia"
              "cecilia" "secreto" eq_refl eq_refl (fun _ _ _ => eq_refl))
    as [Hrun Hmain].
  split; [exact Hrun|].
  apply (Hmain _ _ (Hoja ["CCOO N°"; "ORGANISMO"] [[Texto "200"; Texto "X"]])
           0%nat 1%nat); reflexivity.
Defined.

(** ** Back to the list *)

Lemma corrida_cabeza (home : string) (cs : list celda) (fl : list fase)
    (r : exn + unit) :
  corrida home cs fl r -> fl = [] \/ exists c fl', fl = FBusca c :: fl'.
Proof.
  destruct 1 as [|c cs b fs r Hb _|c cs b e Hb]; [by left|right..];
    inversion Hb; subst; cbn; eauto.
Qed.

Lemma login_vuelta (fa fl : list fase) :
  forallb es_fase_login fa = true ->
  tras_guardar_vuelve (fa ++ fl) = tras_guardar_vuelve fl /\
  tras_error_busca (fa ++ fl) = tras_error_busca fl.
Proof.
  induction fa as [|f fa IH]; cbn; [done|].
  intros [Hf Hfa]%andb_prop. destruct f; try discriminate; by apply IH.
Qed.

Lemma corrida_vuelta (home : string) (cs : list celda) (fl : list fase)
    (r : exn + unit) :
  corrida home cs fl r ->
  tras_guardar_vuelve fl = true /\ tras_error_busca fl = true.
Proof.
  induction 1 as [|c cs b fs r Hb Hfs [IHg IHe]|c cs b e Hb].
  - done.
  - apply corrida_cabeza in Hfs.
    inversion Hb as [d|fb e Hfb Hex| | | | |]; subst; cbn; [done|].
    destruct Hfb; cbn; (split; [done|]);
      destruct Hfs as [->|(c' & fl' & ->)]; cbn in *; done.
  - inversion Hb as [ | |fb e' Hfb Hex| | | |]; subst; try done.
    by destruct Hfb.
Qed.

(** C4 on the code: in every run a saved file is followed by the click
    back to the list, but after a failed download the handler prints and
    the next step is the next search, with no click back to the list in
    between.  When the download of "A1" times out, the search of "A2"
    comes right after the printed line; after the download of "A2", which
    succeeds, the click is there. *)
Theorem fallo_no_vuelve_a_la_lista :
  (forall (w : mundo) (environ : string -> option string) (home : string)
          (cs : list celda),
      tras_guardar_vuelve (fases (correr w environ home cs).1) = true /\
      tras_error_busca (fases (correr w environ home cs).1) = true) /\
  fases (correr (mundo_sin_descarga 0) entorno_cecilia "/home/cecilia"
           [Texto "A1"; Texto "A2"]).1
  = [FNavega portal; FCredencial 0 (Texto "cecilia");
     FCredencial 1 (Texto "secreto"); FEnvia;
     FBusca (Texto "A1"); FDispara; FAbre 29; FDescarga 0; FEspera 30000;
     FFalla timeout_descarga; FError (mensaje_error timeout_descarga);
     FBusca (Texto "A2"); FDispara; FAbre 29; FDescarga 0; FEspera 30000;
     FObtiene (Download "informe.pdf" "A2");
     FGuarda "/home/cecilia/Downloads/informe.pdf" (Download "informe.pdf" "A2");
     FVuelve].
Proof.
  split; [|vm_compute; reflexivity].
  intros w environ home cs.
  destruct (correr_forma w environ home cs) as [fa e Hfa|fa fl r Hfa Hc].
  - rewrite <- (app_nil_r fa). by destruct (login_vuelta fa [] Hfa) as [-> ->].
  - destruct (login_vuelta fa fl Hfa) as [-> ->].
    by apply (corrida_vuelta home cs fl r).
Qed.

(** * Further properties of the code *)

(** ** The selector: errors and what the result depends on *)







(** The four errors and a return, on sheets. *)
Example obtener_comunicaciones_errores :
  obtener_comunicaciones sin_archivos ""
  = inl (FileNotFoundError "[Errno 2] No such file or directory: ''") /\
  obtener_comunicaciones (con_hoja (Hoja [] [])) "casos.xlsx"
  = inl (KeyError "'ORGANISMO'") /\
  obtener_comunicaciones (con_hoja (Hoja ["FECHA"] [])) "casos.xlsx"
  = inl (ValueError
           "Usecols do not match columns, columns expected but not found: ['CCOO N°', 'ORGANISMO']") /\
  obtener_comunicaciones (con_hoja (Hoja ["CCOO N°"; "ORGANISMO"] [])) "casos.xlsx"
  = inr [].
Proof. repeat split; reflexivity. Qed.

(** X3: only the two named columns count.  Two sheets whose "CCOO N°"
    columns agree and whose "ORGANISMO" columns agree give the same list,
    wherever the columns stand and whatever other columns there are. *)
Theorem obtener_comunicaciones_solo_sus_columnas (d1 d2 : archivos)
    (a1 a2 : string) (h1 h2 : hoja) (i1 j1 i2 j2 : nat) :
  d1 a1 = Some h1 -> d2 a2 = Some h2 ->
  indice "CCOO N°" (encabezado h1) = Some i1 ->
  indice "ORGANISMO" (encabezado h1) = Some j1 ->
  indice "CCOO N°" (encabezado h2) = Some i2 ->
  indice "ORGANISMO" (encabezado h2) = Some j2 ->
  map (celda_en i1) (filas h1) = map (celda_en i2) (filas h2) ->
  map (celda_en j1) (filas h1) = map (celda_en j2) (filas h2) ->
  obtener_comunicaciones d1 a1 = obtener_comunicaciones d2 a2.
Proof.
  intros Hd1 Hd2 Hi1 Hj1 Hi2 Hj2 Hi Hj.
  rewrite (obtener_por_columnas d1 a1 h1 i1 j1 Hd1 Hi1 Hj1).
  rewrite (obtener_por_columnas d2 a2 h2 i2 j2 Hd2 Hi2 Hj2).
  by rewrite Hi, Hj.
Qed.

Lemma obtener_comunicaciones_solo_sus_columnas_witness :
  obtener_comunicaciones (con_hoja hoja_ejemplo) "casos.xlsx"
  = obtener_comunicaciones
      (con_hoja (Hoja ["ORGANISMO"; "FECHA"; "CCOO N°"]
                      [[NaN; Numero 1; Texto "100"];
                       [Texto "X"; Numero 2; Texto "200"];
                       [NaN; NaN; Texto "300"]]))
      "otros.xlsx".
Proof.
  apply (obtener_comunicaciones_solo_sus_columnas _ _ _ _ hoja_ejemplo
           (Hoja ["ORGANISMO"; "FECHA"; "CCOO N°"]
                 [[NaN; Numero 1; Texto "100"];
                  [Texto "X"; Numero 2; Texto "200"];
                  [NaN; NaN; Texto "300"]])
           0%nat 1%nat 2%nat 0%nat); reflexivity.
Defined.

(** ** The program: when the browser is started *)

Lemma correr_no_vacia (w : mundo) (environ : string -> option string)
    (home : string) (cs : list celda) :
  (correr w environ home cs).1 <> [].
Proof.
  rewrite correr_eq.
  destruct (falla w [] SyncPlaywright); [done|].
  destruct (autenticar w environ [(SyncPlaywright, Hecho)]) as [ta [e|[]]]; [done|].
  by destruct (for_each cs (iteracion w home) ((SyncPlaywright, Hecho) :: ta)).
Qed.

(** X4: the program touches the browser exactly when the selector
    returned: the trace of the run is empty if and only if the selector
    raised, and then the program ends with the selector's exception. *)
Theorem main_navegador_sii_seleccion (w : mundo)
    (environ : string -> option string) (home : string) (disco : archivos)
    (archivo : string) :
  ((correr_main w environ home disco archivo).1 = [] <->
   exists e, obtener_comunicaciones disco archivo = inl e) /\
  (forall e, obtener_comunicaciones disco archivo = inl e ->
             (correr_main w environ home disco archivo).2 = inl e).
Proof.
  unfold correr_main, main.
  destruct (obtener_comunicaciones disco archivo) as [e|cs]; cbn.
  - split; [|by intros ? [= <-]]. split; [by eauto|done].
  - split; [|done]. split.
    + intros Hn. by apply correr_no_vacia in Hn.
    + by intros [e ?].
Qed.

Lemma main_navegador_sii_seleccion_witness :
  (correr_main mundo_fiable entorno_cecilia "/home/cecilia" sin_archivos "").2
  = inl (no_existe "").
Proof.
  apply (proj2 (main_navegador_sii_seleccion mundo_fiable entorno_cecilia
                  "/home/cecilia" sin_archivos "")).
  reflexivity.
Defined.

(** ** How computations compose *)

Lemma todo_capturado_app (t1 t2 : traza) :
  todo_capturado (t1 ++ t2) = todo_capturado t1 && todo_capturado t2.
Proof. apply forallb_app. Qed.

Lemma termina_bind {A B : Type} (V : exn -> Prop) (m : M A) (f : A -> M B)
    (h : traza) :
  termina V (m h).1 (m h).2 ->
  (forall a h', termina V (f a h').1 (f a h').2) ->
  termina V ((m ≫= f) h).1 ((m ≫= f) h).2.
Proof.
  intros Hm Hf. unfold mbind, M_bind.
  destruct (m h) as [t1 [e|a]]; cbn [fst snd] in *.
  - inversion Hm; subst; by constructor.
  - specialize (Hf a (h ++ t1)).
    destruct (f a (h ++ t1)) as [t2 r]; cbn [fst snd] in *.
    inversion Hm as [t a' H1| |]; subst.
    inversion Hf as [t b H2|t b e H2 Hb|t e H2 HV]; subst.
    + constructor. by rewrite todo_capturado_app, H1, H2.
    + rewrite app_assoc. constructor; [|done].
      by rewrite todo_capturado_app, H1, H2.
    + apply termina_raise; [|done]. by rewrite todo_capturado_app, H1, H2.
Qed.

Lemma termina_hacer (V : exn -> Prop) (w : mundo) (a : accion) (h : traza) :
  es_descarga a = false ->
  termina V (hacer w a h).1 (hacer w a h).2.
Proof.
  intros Ha. unfold hacer. destruct (falla w h a) as [e|]; cbn [fst snd].
  - apply (termina_lanza V []); [done|]. cbn. by rewrite Ha.
  - by apply termina_bien.
Qed.

Lemma termina_local (V : exn -> Prop) (a : accion) (h : traza) :
  termina V (local a h).1 (local a h).2.
Proof. by apply termina_bien. Qed.

Lemma termina_try_descargar (V : exn -> Prop) (w : mundo) (home : string)
    (h : traza) :
  termina V (try_ (descargar w home) h).1 (try_ (descargar w home) h).2.
Proof.
  unfold try_, descargar, expect_download, hacer, local.
  unfold mbind, M_bind. cbn. casos_mundo.
  all: try (apply termina_bien; cbn;
            repeat match goal with
                   | H : exn_exception _ = _ |- _ => rewrite H
                   end; done).
  all: first [ apply (termina_lanza V [])
             | apply (termina_lanza V [_])
             | apply (termina_lanza V [_; _]) ];
    [done|cbn; repeat match goal with
                      | H : exn_exception _ = _ |- _ => rewrite H
                      end; done].
Qed.

Lemma termina_iteracion (V : exn -> Prop) (w : mundo) (home : string)
    (c : celda) (h : traza) :
  termina V (iteracion w home c h).1 (iteracion w home c h).2.
Proof.
  unfold iteracion.
  repeat (apply termina_bind;
          [first [by apply termina_hacer | apply termina_local]|intros _ ?]).
  apply termina_bind; [apply termina_try_descargar|intros [e|[]] ?].
  - apply termina_local.
  - repeat (apply termina_bind;
            [first [by apply termina_hacer | apply termina_local]|intros _ ?]).
    by apply termina_hacer.
Qed.

Lemma termina_for_each {A : Type} (V : exn -> Prop) (f : A -> M unit)
    (xs : list A) :
  (forall x h, termina V (f x h).1 (f x h).2) ->
  forall h, termina V (for_each xs f h).1 (for_each xs f h).2.
Proof.
  intros Hf. induction xs as [|x xs IH]; intros h.
  - by constructor.
  - cbn [for_each]. apply termina_bind; [apply Hf|]. intros _ h'. apply IH.
Qed.

Lemma bind_mret {A B : Type} (x : A) (f : A -> M B) (h : traza) :
  (mret x ≫= f) h = f x h.
Proof.
  unfold mbind, M_bind, mret, M_ret. rewrite app_nil_r.
  by destruct (f x h).
Qed.

Lemma termina_autenticar (w : mundo) (environ : string -> option string)
    (h : traza) :
  termina (sin_credenciales environ)
          (autenticar w environ h).1 (autenticar w environ h).2.
Proof.
  unfold autenticar, getenv.
  repeat (apply termina_bind; [by apply termina_hacer|intros ? ?]).
  rewrite !bind_mret.
  destruct (environ "SADE_USER_CECILIA") as [u|] eqn:Hu;
    [destruct (environ "SADE_PASSWORD_CECILIA") as [p|] eqn:Hp|].
  - repeat (apply termina_bind;
            [first [by apply termina_hacer | apply termina_local]|intros ? ?]).
    apply termina_local.
  - apply termina_raise; [done|]. split; [by right|done].
  - apply termina_raise; [done|]. split; [by left|done].
Qed.

Lemma emite_bind {A B : Type} (Q : accion -> Prop) (m : M A) (f : A -> M B) :
  emite Q m -> (forall a, emite Q (f a)) -> emite Q (m ≫= f).
Proof.
  intros Hm Hf h. unfold mbind, M_bind. specialize (Hm h).
  destruct (m h) as [t1 [e|a]]; cbn [fst] in *; [done|].
  specialize (Hf a (h ++ t1)).
  destruct (f a (h ++ t1)) as [t2 r]; cbn [fst] in *.
  by apply Forall_app.
Qed.

Lemma emite_hacer (Q : accion -> Prop) (w : mundo) (a : accion) :
  Q a -> emite Q (hacer w a).
Proof.
  intros Ha h. unfold hacer. destruct (falla w h a); by repeat constructor.
Qed.

Lemma emite_local (Q : accion -> Prop) (a : accion) : Q a -> emite Q (local a).
Proof. intros Ha h. by repeat constructor. Qed.

Lemma emite_try {A : Type} (Q : accion -> Prop) (m : M A) :
  emite Q m -> emite Q (try_ m).
Proof.
  intros Hm h. unfold try_. specialize (Hm h).
  destruct (m h) as [t [e|a]]; [by destruct (exn_exception e)|done].
Qed.

Lemma emite_for_each {A : Type} (Q : accion -> Prop) (f : A -> M unit)
    (xs : list A) :
  (forall x, emite Q (f x)) -> emite Q (for_each xs f).
Proof.
  intros Hf. induction xs as [|x xs IH]; [by intros h; constructor|].
  cbn [for_each]. by apply emite_bind.
Qed.

Section Emite.

Variable w : mundo.
Variable environ : string -> option string.
Variable home : string.
Variable Q : accion -> Prop.

Hypothesis Q_fuera :
  forall a, es_descarga a = false -> es_cierre a = false -> Q a.
Hypothesis Q_descargar : emite Q (descargar w home).

Lemma emite_iteracion (c : celda) : emite Q (iteracion w home c).
Proof.
  unfold iteracion.
  repeat (apply emite_bind;
          [first [by apply emite_hacer, Q_fuera | by apply emite_local, Q_fuera]
          |intros _]).
  apply emite_bind; [by apply emite_try|intros [e|[]]].
  - by apply emite_local, Q_fuera.
  - repeat (apply emite_bind;
            [first [by apply emite_hacer, Q_fuera | by apply emite_local, Q_fuera]
            |intros _]).
    by apply emite_hacer, Q_fuera.
Qed.

Lemma emite_autenticar : emite Q (autenticar w environ).
Proof.
  unfold autenticar, getenv.
  repeat (apply emite_bind; [by apply emite_hacer, Q_fuera|intros _]).
  apply emite_bind; [by intros h; constructor|intros user].
  apply emite_bind; [by intros h; constructor|intros password].
  destruct user, password; try (by intros h; constructor).
  repeat (apply emite_bind;
          [first [by apply emite_hacer, Q_fuera | by apply emite_local, Q_fuera]
          |intros _]).
  by apply emite_local, Q_fuera.
Qed.

(** A run is the lone failure to start Playwright, or a body between
    [SyncPlaywright] and [Stop]. *)
Lemma correr_emite (cs : list celda) :
  (exists e, correr w environ home cs = ([(SyncPlaywright, Lanzo e)], inl e)) \/
  (exists t,
      (correr w environ home cs).1
      = (SyncPlaywright, Hecho) :: t ++ [(Stop, Hecho)] /\
      Forall (fun ev => Q (fst ev)) t).
Proof.
  rewrite correr_eq.
  destruct (falla w [] SyncPlaywright) as [e|]; [left; by exists e|right].
  pose proof (emite_autenticar [(SyncPlaywright, Hecho)]) as Ha.
  destruct (autenticar w environ [(SyncPlaywright, Hecho)]) as [ta [e|[]]];
    cbn [fst] in *.
  - by exists ta.
  - pose proof (emite_for_each Q (iteracion w home) cs emite_iteracion
                  ((SyncPlaywright, Hecho) :: ta)) as Hb.
    destruct (for_each cs (iteracion w home) ((SyncPlaywright, Hecho) :: ta))
      as [tb rb]; cbn [fst] in *.
    exists (ta ++ tb). split; [done|]. by apply Forall_app.
Qed.

End Emite.

(** ** The session *)

(** X5: the session is always closed.  Unless starting Playwright itself
    raises (and then nothing else happens), every run, ending normally or
    with an exception, starts with [SyncPlaywright] and ends with [Stop],
    and neither occurs anywhere in between. *)
Theorem sesion_siempre_cerrada (w : mundo) (environ : string -> option string)
    (home : string) (cs : list celda) :
  (exists e, correr w environ home cs = ([(SyncPlaywright, Lanzo e)], inl e)) \/
  (exists t,
      (correr w environ home cs).1
      = (SyncPlaywright, Hecho) :: t ++ [(Stop, Hecho)] /\
      Forall (fun ev => es_cierre (fst ev) = false) t).
Proof.
  apply (correr_emite w environ home (fun a => es_cierre a = false)); [done|].
  unfold descargar.
  apply emite_bind; [by apply emite_hacer|intros _].
  apply emite_bind.
  - intros h. unfold expect_download.
    destruct (falla w h (ExpectDownload 30000)); by repeat constructor.
  - intros d. apply emite_bind; [by apply emite_hacer|intros _].
    by apply emite_local.
Qed.

(** ** Exceptions *)

(** X6: the first exception that no handler catches is the last thing
    that happens.  The program catches an exception only when an action
    of the download step raised it and its class derives from
    [Exception].  A run that ends normally raised no other exception.  A
    run that ends with an exception [e] ends with the action that raised
    [e], which the handler does not catch, followed at most by [Stop],
    every exception before it having been caught; or [e] is the
    [ValueError] of the credentials check, a credential is missing, and
    every exception raised was caught. *)
Theorem primera_excepcion_termina (w : mundo) (environ : string -> option string)
    (home : string) (cs : list celda) :
  match (correr w environ home cs).2 with
  | inr _ => todo_capturado (correr w environ home cs).1 = true
  | inl e =>
      (exists t a cola,
          (correr w environ home cs).1 = t ++ (a, Lanzo e) :: cola /\
          (es_descarga a = false \/ exn_exception e = false) /\
          todo_capturado t = true /\
          (cola = [] \/ cola = [(Stop, Hecho)])) \/
      (sin_credenciales environ e /\
       todo_capturado (correr w environ home cs).1 = true)
  end.
Proof.
  assert (Hesc : forall a e, escapa (a, Lanzo e) = true ->
                             es_descarga a = false \/ exn_exception e = false).
  { intros a e. cbn. destruct (es_descarga a), (exn_exception e); by auto. }
  rewrite correr_eq.
  destruct (falla w [] SyncPlaywright) as [e|]; cbn [fst snd].
  { left. exists [], SyncPlaywright, [].
    split; [done|]. split; [by left|]. split; [done|by left]. }
  pose proof (termina_autenticar w environ [(SyncPlaywright, Hecho)]) as Ha.
  destruct (autenticar w environ [(SyncPlaywright, Hecho)]) as [ta [e|[]]];
    cbn [fst snd] in *.
  { inversion Ha as [|t a e' Ht Hd|t e' Ht HV]; subst.
    - left. exists ((SyncPlaywright, Hecho) :: t), a, [(Stop, Hecho)].
      split; [cbn; by rewrite <- app_assoc|].
      split; [by apply Hesc|]. split; [done|by right].
    - right. split; [done|].
      change (todo_capturado (ta ++ [(Stop, Hecho)]) = true).
      by rewrite todo_capturado_app, Ht. }
  inversion Ha as [t a Hta| |]; subst.
  pose proof (termina_for_each (fun _ => False) (iteracion w home) cs
                (termina_iteracion _ w home) ((SyncPlaywright, Hecho) :: ta)) as Hb.
  destruct (for_each cs (iteracion w home) ((SyncPlaywright, Hecho) :: ta))
    as [tb [e|[]]]; cbn [fst snd] in *.
  - inversion Hb as [|t a e' Ht Hd|t e' Ht []]; subst.
    left. exists ((SyncPlaywright, Hecho) :: ta ++ t), a, [(Stop, Hecho)].
    split; [cbn; by rewrite <- !app_assoc|].
    split; [by apply Hesc|]. split; [|by right].
    change (todo_capturado (ta ++ t) = true).
    by rewrite todo_capturado_app, Hta, Ht.
  - inversion Hb as [t a Htb| |]; subst.
    change (todo_capturado ((ta ++ tb) ++ [(Stop, Hecho)]) = true).
    by rewrite !todo_capturado_app, Hta, Htb.
Qed.

(** A [KeyboardInterrupt] in the download wait is not caught: it ends
    the run. *)
Example interrupcion_termina :
  correr (Mundo (fun _ a => match a with
                            | ExpectDownload _ => Some KeyboardInterrupt
                            | _ => None
                            end) informe)
         entorno_cecilia "/home/cecilia" [Texto "A1"; Texto "A2"]
  = ((SyncPlaywright, Hecho) :: traza_login "cecilia" "secreto"
       ++ ida (Texto "A1")
       ++ [(Click ".z-icon-download" 0, Hecho);
           (ExpectDownload 30000, Lanzo KeyboardInterrupt); (Stop, Hecho)],
     inl KeyboardInterrupt).
Proof. reflexivity. Qed.

(** ** Files and identifiers *)

Lemma login_guardadas (a : celda) (fa fl : list fase) :
  forallb es_fase_login fa = true ->
  guardadas_desde a (fa ++ fl) = guardadas_desde a fl /\
  omap linea_de (fa ++ fl) = omap linea_de fl.
Proof.
  induction fa as [|f fa IH]; cbn; [done|].
  intros [Hf Hfa]%andb_prop. destruct f; try discriminate; by apply IH.
Qed.

Lemma corrida_cuenta (home : string) (cs : list celda) (fl : list fase)
    (r : exn + unit) :
  corrida home cs fl r ->
  forall a,
    map fst (guardadas_desde a fl) `sublist_of` cs /\
    (r = inr tt ->
     (length (guardadas_desde a fl) + length (omap linea_de fl))%nat = length cs).
Proof.
  induction 1 as [|c cs b fs r Hb _ IH|c cs b e Hb]; intros a.
  - split; [constructor|done].
  - destruct (IH c) as [IHs IHn].
    inversion Hb as [d|fb e Hfb Hex| | | | |]; subst.
    + cbn. split; [by constructor|]. intros Hr. by rewrite (IHn Hr).
    + destruct Hfb; cbn; (split; [by constructor|]);
        intros Hr; by rewrite <- (IHn Hr).
  - split; [|done].
    inversion Hb as [ | |fb e' Hfb Hex| | | |]; subst; try destruct Hfb; cbn;
      try apply sublist_nil_l.
    apply sublist_skip, sublist_nil_l.
Qed.

(** X7: whatever raises, the identifiers with a saved file are a
    subsequence of the list: at most one file per position, in list order.
    In a run that ends normally every position is accounted for once: the
    files saved and the error lines printed add up to the length of the
    list. *)
Theorem cada_identificador_guardado_o_registrado (w : mundo)
    (environ : string -> option string) (home : string) (cs : list celda) :
  map fst (guardadas (correr w environ home cs).1) `sublist_of` cs /\
  ((correr w environ home cs).2 = inr tt ->
   (length (guardadas (correr w environ home cs).1) +
    length (lineas (correr w environ home cs).1))%nat = length cs).
Proof.
  unfold guardadas, lineas.
  destruct (correr_forma w environ home cs) as [fa e Hfa|fa fl r Hfa Hc].
  - rewrite <- (app_nil_r fa).
    destruct (login_guardadas NaN fa [] Hfa) as [-> _].
    split; [apply sublist_nil_l|done].
  - destruct (login_guardadas NaN fa fl Hfa) as [-> ->].
    by apply (corrida_cuenta home cs fl r).
Qed.

Lemma cada_identificador_guardado_o_registrado_witness :
  (length (guardadas (correr (mundo_sin_descarga 1) entorno_cecilia
                        "/home/cecilia" [Texto "A1"; Texto "A2"; Texto "A3"]).1) +
   length (lineas (correr (mundo_sin_descarga 1) entorno_cecilia
                     "/home/cecilia" [Texto "A1"; Texto "A2"; Texto "A3"]).1))%nat
  = length [Texto "A1"; Texto "A2"; Texto "A3"].
Proof.
  apply (proj2 (cada_identificador_guardado_o_registrado
                  (mundo_sin_descarga 1) entorno_cecilia "/home/cecilia"
                  [Texto "A1"; Texto "A2"; Texto "A3"])).
  reflexivity.
Defined.

(** ** One authentication, before the searches *)

Lemma autenticar_prefijo (w : mundo) (environ : string -> option string)
    (h : traza) :
  fases (autenticar w environ h).1 `prefix_of` fases_login environ /\
  ((autenticar w environ h).2 = inr tt ->
   fases (autenticar w environ h).1 = fases_login environ /\
   is_Some (environ "SADE_USER_CECILIA") /\
   is_Some (environ "SADE_PASSWORD_CECILIA")).
Proof.
  unfold autenticar, getenv, hacer, local, raise, fases_login.
  unfold mbind, M_bind, mret, M_ret. cbn.
  casos_mundo; try (split; [by eexists|done]).
  all: destruct (environ "SADE_USER_CECILIA"), (environ "SADE_PASSWORD_CECILIA");
    cbn; casos_mundo; (split; [by eexists|]); try done; eauto.
Qed.

Lemma corrida_sin_login (home : string) (cs : list celda) (fl : list fase)
    (r : exn + unit) :
  corrida home cs fl r ->
  forallb (fun f => negb (es_fase_login f)) fl = true.
Proof.
  induction 1 as [|c cs b fs r Hb _ IH|c cs b e Hb].
  - done.
  - rewrite forallb_app, IH, andb_true_r.
    inversion Hb as [d|fb e Hfb Hex| | | | |]; subst; [done|]. by destruct Hfb.
  - inversion Hb as [ | |fb e' Hfb Hex| | | |]; subst; try done. by destruct Hfb.
Qed.

(** X8: a run authenticates at most once and before any search.  Its
    steps split in two: first a prefix of the authentication (the portal's
    base page, the user name from the environment into box 0, the password
    into box 1, submit), then steps of the loop only, with no navigation
    and no credential among them; and the loop only starts after the
    whole authentication, with both credentials in the environment. *)
Theorem una_autenticacion_antes_de_buscar (w : mundo)
    (environ : string -> option string) (home : string) (cs : list celda) :
  exists fa fl,
    fases (correr w environ home cs).1 = fa ++ fl /\
    fa `prefix_of` fases_login environ /\
    forallb (fun f => negb (es_fase_login f)) fl = true /\
    (fl = [] \/
     (fa = fases_login environ /\
      is_Some (environ "SADE_USER_CECILIA") /\
      is_Some (environ "SADE_PASSWORD_CECILIA"))).
Proof.
  rewrite correr_eq.
  destruct (falla w [] SyncPlaywright) as [e|].
  { exists [], []. split; [done|]. split; [apply prefix_nil|]. by eauto. }
  destruct (autenticar_prefijo w environ [(SyncPlaywright, Hecho)]) as [Hp Hok].
  destruct (autenticar w environ [(SyncPlaywright, Hecho)]) as [ta [e|[]]];
    cbn [fst snd] in *.
  - exists (fases ta), []. rewrite fases_sync, fases_stop, app_nil_r. by eauto.
  - pose proof (bucle_corrida w home cs ((SyncPlaywright, Hecho) :: ta)) as Hc.
    destruct (for_each cs (iteracion w home) ((SyncPlaywright, Hecho) :: ta))
      as [tb rb]; cbn [fst snd] in *.
    exists (fases ta), (fases tb).
    rewrite fases_sync, fases_stop, fases_app.
    split; [done|]. split; [done|].
    split; [by apply (corrida_sin_login home cs _ rb)|]. right. by apply Hok.
Qed.

(** ** A longer list continues the run of a shorter one *)

Lemma for_each_app {A : Type} (f : A -> M unit) (xs ys : list A) (h : traza) :
  for_each (xs ++ ys) f h =
  match for_each xs f h with
  | (t1, inl e) => (t1, inl e)
  | (t1, inr _) =>
      match for_each ys f (h ++ t1) with
      | (t2, r) => (t1 ++ t2, r)
      end
  end.
Proof.
  revert h. induction xs as [|x xs IH]; intros h.
  - cbn. rewrite app_nil_r. by destruct (for_each ys f h).
  - change ((x :: xs) ++ ys) with (x :: xs ++ ys). rewrite !for_each_cons.
    destruct (f x h) as [t1 [e|[]]]; [done|]. rewrite IH.
    destruct (for_each xs f (h ++ t1)) as [t2 [e|[]]]; [done|].
    rewrite <- app_assoc.
    destruct (for_each ys f (h ++ t1 ++ t2)) as [t3 r].
    by rewrite app_assoc.
Qed.

(** X9: identifiers are handled on line, the later ones having no part in
    what happens to the earlier ones.  If the run on a list ends with an
    exception, the run on any longer list that starts with it is the very
    same run; if it ends normally, the run on the longer list does the
    same up to the final [Stop] and goes on from there with the loop over
    the rest. *)
Theorem lista_mas_larga_continua (w : mundo) (environ : string -> option string)
    (home : string) (cs1 cs2 : list celda) :
  match correr w environ home cs1 with
  | (tr, inl e) => correr w environ home (cs1 ++ cs2) = (tr, inl e)
  | (tr, inr _) =>
      exists t,
        tr = t ++ [(Stop, Hecho)] /\
        correr w environ home (cs1 ++ cs2) =
        match for_each cs2 (iteracion w home) t with
        | (t2, r) => (t ++ t2 ++ [(Stop, Hecho)], r)
        end
  end.
Proof.
  rewrite !correr_eq.
  destruct (falla w [] SyncPlaywright) as [e|]; [done|].
  destruct (autenticar w environ [(SyncPlaywright, Hecho)]) as [ta [e|[]]]; [done|].
  rewrite for_each_app.
  destruct (for_each cs1 (iteracion w home) ((SyncPlaywright, Hecho) :: ta))
    as [tb [e|[]]]; [done|].
  exists ((SyncPlaywright, Hecho) :: ta ++ tb). split; [done|].
  change (((SyncPlaywright, Hecho) :: ta) ++ tb)
    with ((SyncPlaywright, Hecho) :: ta ++ tb).
  destruct (for_each cs2 (iteracion w home) ((SyncPlaywright, Hecho) :: ta ++ tb))
    as [t2 r].
  cbn. by rewrite <- !app_assoc.
Qed.

(** ** Nothing is written outside the downloads directory *)

Lemma descargar_guarda_transferencia (w : mundo) (home : string) :
  emite (guarda_transferencia w home) (descargar w home).
Proof.
  intros h. unfold descargar, expect_download, hacer, local.
  unfold mbind, M_bind. cbn.
  casos_mundo; repeat (apply Forall_cons; split; [cbn; by eauto|]); constructor.
Qed.

(** X10: with a home directory (not empty, no separator at its end) and a
    portal whose transfers suggest names that do not start with a
    separator, the path given to every [save_as] of every run, successful
    or not, is the text home/Downloads/name.  The condition on the names
    is needed: a name that starts with a separator is its own
    [save_path].  And the text is all that is known: nothing is
    normalised, so a name such as "../.bashrc" gives a path that starts
    with home/Downloads/ and names a file outside that directory. *)
Theorem ruta_de_cada_guardado (w : mundo) (environ : string -> option string)
    (home : string) (cs : list celda) :
  home <> "" ->
  endswith_sep home = false ->
  (forall h, startswith_sep (suggested_filename (transferencia w h)) = false) ->
  Forall (fun ev => match fst ev with
                    | SaveAs d ruta =>
                        ruta = home +:+ "/Downloads/" +:+ suggested_filename d
                    | _ => True
                    end) (correr w environ home cs).1 /\
  (forall d, startswith_sep (suggested_filename d) = true ->
             save_path home d = suggested_filename d) /\
  save_path home (Download "../.bashrc" "") = home +:+ "/Downloads/../.bashrc".
Proof.
  intros Hh He Hn. split; [|split].
  - destruct (correr_emite w environ home (guarda_transferencia w home))
      with (cs := cs) as [[e ->]|(t & -> & Ht)].
    + intros a Ha _. by destruct a.
    + apply descargar_guarda_transferencia.
    + by repeat constructor.
    + constructor; [done|]. apply Forall_app. split; [|by repeat constructor].
      eapply Forall_impl; [exact Ht|]. intros [a o] Ha. cbn in *.
      destruct a; try done. destruct Ha as [-> [h' ->]].
      by apply os_path_join_descargas.
  - intros d Hd. unfold save_path, os_path_join. cbn [fold_left].
    unfold join2 at 1. by rewrite Hd.
  - unfold save_path. by rewrite os_path_join_descargas.
Qed.

Lemma ruta_de_cada_guardado_witness :
  Forall (fun ev => match fst ev with
                    | SaveAs d ruta =>
                        ruta = "/home/cecilia" +:+ "/Downloads/" +:+ suggested_filename d
                    | _ => True
                    end)
         (correr mundo_fiable entorno_cecilia "/home/cecilia"
            [Texto "A1"; Texto "A2"]).1.
Proof.
  apply (proj1 (ruta_de_cada_guardado mundo_fiable entorno_cecilia
                  "/home/cecilia" [Texto "A1"; Texto "A2"]
                  ltac:(discriminate) eq_refl (fun _ => eq_refl))).
Defined.

(** A transfer whose name climbs out of the directory, and one whose name
    is an absolute path. *)
Example save_path_fuera_de_descargas :
  save_path "/home/cecilia" (Download "../.bashrc" "") = "/home/cecilia/Downloads/../.bashrc" /\
  save_path "/home/cecilia" (Download "/etc/hosts" "") = "/etc/hosts".
Proof. split; reflexivity. Qed.

(** ** The time slept *)

Lemma dormido_app (t1 t2 : traza) : dormido (t1 ++ t2) = (dormido t1 + dormido t2)%Z.
Proof.
  induction t1 as [|[a o] t1 IH]; [done|].
  cbn. destruct a; rewrite ?IH; lia.
Qed.

Lemma iteracion_dormido (w : mundo) (home : string) (c : celda) (h : traza)
    (a : celda) :
  (iteracion w home c h).2 = inr tt ->
  dormido (iteracion w home c h).1
  = (3500 * Z.of_nat (length (guardadas_desde a (fases (iteracion w home c h).1)))
     + 2000 * Z.of_nat (length (omap linea_de (fases (iteracion w home c h).1))))%Z.
Proof.
  unfold iteracion, descargar, expect_download, hacer, local, try_.
  unfold mbind, M_bind. cbn. casos_mundo; intros Hr; try discriminate; reflexivity.
Qed.

Lemma bucle_dormido (w : mundo) (home : string) (cs : list celda) (h : traza)
    (a : celda) :
  (for_each cs (iteracion w home) h).2 = inr tt ->
  dormido (for_each cs (iteracion w home) h).1
  = (3500 * Z.of_nat (length (guardadas_desde a
                                (fases (for_each cs (iteracion w home) h).1)))
     + 2000 * Z.of_nat (length (omap linea_de
                                  (fases (for_each cs (iteracion w home) h).1))))%Z.
Proof.
  revert h a. induction cs as [|c cs IH]; intros h a; [done|].
  rewrite for_each_cons.
  pose proof (iteracion_dormido w home c h a) as Hi.
  destruct (iteracion w home c h) as [t1 [e|[]]]; [done|]. cbn [fst snd] in Hi.
  destruct (guardadas_desde_app a (fases t1) (fases (for_each cs (iteracion w home)
                                                       (h ++ t1)).1)) as [a' Hg].
  specialize (IH (h ++ t1) a').
  destruct (for_each cs (iteracion w home) (h ++ t1)) as [t2 r]. cbn [fst snd] in *.
  intros Hr. rewrite dormido_app, fases_app, Hg, omap_app, !length_app.
  rewrite (Hi eq_refl), (IH Hr). lia.
Qed.

Lemma autenticar_dormido (w : mundo) (environ : string -> option string)
    (h : traza) :
  (autenticar w environ h).2 = inr tt -> dormido (autenticar w environ h).1 = 2000%Z.
Proof.
  unfold autenticar, getenv, hacer, local, raise.
  unfold mbind, M_bind, mret, M_ret. cbn. casos_mundo; try discriminate.
  destruct (environ "SADE_USER_CECILIA"), (environ "SADE_PASSWORD_CECILIA");
    cbn; casos_mundo; intros Hr; try discriminate; reflexivity.
Qed.

(** X11: the fixed sleeps of a run that ends normally add up to 2 s after
    the login, 3.5 s for every file saved (1 + 1 + 0.5 + 1) and 2 s for
    every download that failed (1 + 1: the sleeps after the save and after
    the way back are skipped). *)
Theorem tiempo_dormido (w : mundo) (environ : string -> option string)
    (home : string) (cs : list celda) :
  (correr w environ home cs).2 = inr tt ->
  dormido (correr w environ home cs).1
  = (2000 + 3500 * Z.of_nat (length (guardadas (correr w environ home cs).1))
     + 2000 * Z.of_nat (length (lineas (correr w environ home cs).1)))%Z.
Proof.
  unfold guardadas, lineas. rewrite correr_eq.
  destruct (falla w [] SyncPlaywright) as [e|]; [done|].
  pose proof (autenticar_dormido w environ [(SyncPlaywright, Hecho)]) as Ha.
  pose proof (autenticar_login w environ [(SyncPlaywright, Hecho)]) as Hl.
  destruct (autenticar w environ [(SyncPlaywright, Hecho)]) as [ta [e|[]]]; [done|].
  cbn [fst snd] in Ha, Hl.
  pose proof (bucle_dormido w home cs ((SyncPlaywright, Hecho) :: ta) NaN) as Hb.
  destruct (for_each cs (iteracion w home) ((SyncPlaywright, Hecho) :: ta))
    as [tb rb]; cbn [fst snd] in *.
  intros Hr. rewrite fases_sync, fases_stop, fases_app.
  destruct (login_guardadas NaN (fases ta) (fases tb) Hl) as [-> ->].
  change (dormido ((SyncPlaywright, Hecho) :: (ta ++ tb) ++ [(Stop, Hecho)]))
    with (dormido ((ta ++ tb) ++ [(Stop, Hecho)])).
  rewrite !dormido_app, (Ha eq_refl), (Hb Hr). cbn. lia.
Qed.

Lemma tiempo_dormido_witness :
  dormido (correr (mundo_sin_descarga 1) entorno_cecilia "/home/cecilia"
             [Texto "A1"; Texto "A2"; Texto "A3"]).1
  = (2000 + 3500 * Z.of_nat (length (guardadas
                               (correr (mundo_sin_descarga 1) entorno_cecilia
                                  "/home/cecilia"
                                  [Texto "A1"; Texto "A2"; Texto "A3"]).1))
     + 2000 * Z.of_nat (length (lineas
                                  (correr (mundo_sin_descarga 1) entorno_cecilia
                                     "/home/cecilia"
                                     [Texto "A1"; Texto "A2"; Texto "A3"]).1)))%Z.
Proof.
  apply (tiempo_dormido (mundo_sin_descarga 1) entorno_cecilia "/home/cecilia"
           [Texto "A1"; Texto "A2"; Texto "A3"]).
  reflexivity.
Defined.

Example tiempo_dormido_ejemplo :
  dormido (correr (mundo_sin_descarga 1) entorno_cecilia "/home/cecilia"
             [Texto "A1"; Texto "A2"; Texto "A3"]).1 = 11000%Z.
Proof. reflexivity. Qed.

(** ** No search without a login *)

Lemma autenticar_completa (w : mundo) (environ : string -> option string)
    (h : traza) :
  (autenticar w environ h).2 = inr tt ->
  exists u p,
    environ "SADE_USER_CECILIA" = Some u /\
    environ "SADE_PASSWORD_CECILIA" = Some p /\
    (autenticar w environ h).1 = traza_login u p.
Proof.
  unfold autenticar, getenv, hacer, local, raise.
  unfold mbind, M_bind, mret, M_ret. cbn. casos_mundo; try discriminate.
  destruct (environ "SADE_USER_CECILIA") as [u|],
           (environ "SADE_PASSWORD_CECILIA") as [p|];
    cbn; casos_mundo; intros Hr; try discriminate.
  by exists u, p.
Qed.

Lemma login_sin_busquedas (fa : list fase) :
  forallb es_fase_login fa = true -> omap busqueda_de fa = [].
Proof.
  induction fa as [|f fa IH]; cbn; [done|].
  intros [Hf Hfa]%andb_prop. destruct f; try discriminate; by apply IH.
Qed.

(** X12: no identifier is searched before the login went through.  If a
    run searches anything at all, both credentials are in the
    environment and the run began with the whole authentication, every
    action of it having returned normally: the browser launched with a
    window, a context that accepts downloads, the default timeout of
    30000 ms, the portal's base page loaded, the user name in box 0, the
    password in box 1, the form submitted, and the 2 s sleep. *)
Theorem busqueda_solo_tras_login (w : mundo) (environ : string -> option string)
    (home : string) (cs : list celda) :
  busquedas (correr w environ home cs).1 <> [] ->
  exists u p t,
    environ "SADE_USER_CECILIA" = Some u /\
    environ "SADE_PASSWORD_CECILIA" = Some p /\
    (correr w environ home cs).1
    = (SyncPlaywright, Hecho) :: traza_login u p ++ t.
Proof.
  unfold busquedas. rewrite correr_eq.
  destruct (falla w [] SyncPlaywright) as [e|]; [done|].
  pose proof (autenticar_completa w environ [(SyncPlaywright, Hecho)]) as Ha.
  pose proof (autenticar_login w environ [(SyncPlaywright, Hecho)]) as Hl.
  destruct (autenticar w environ [(SyncPlaywright, Hecho)]) as [ta [e|[]]];
    cbn [fst snd] in *.
  - rewrite fases_sync, fases_stop, (login_sin_busquedas _ Hl). done.
  - destruct (Ha eq_refl) as (u & p & Hu & Hp & ->).
    destruct (for_each cs (iteracion w home)
                ((SyncPlaywright, Hecho) :: traza_login u p)) as [tb rb].
    intros _. exists u, p, (tb ++ [(Stop, Hecho)]). cbn [fst].
    by rewrite <- app_assoc.
Qed.

Lemma busqueda_solo_tras_login_witness :
  exists u p t,
    entorno_cecilia "SADE_USER_CECILIA" = Some u /\
    entorno_cecilia "SADE_PASSWORD_CECILIA" = Some p /\
    (correr mundo_fiable entorno_cecilia "/home/cecilia" [Texto "A1"]).1
    = (SyncPlaywright, Hecho) :: traza_login u p ++ t.
Proof.
  apply (busqueda_solo_tras_login mundo_fiable entorno_cecilia "/home/cecilia"
           [Texto "A1"]).
  discriminate.
Defined.
